(** * concat_archivos: directory walk, file filter and text concatenation

    A shallow embedding of [src/concat_archivos.py].

    Conventions of the embedding.
    - A Python [str] is a [string]; a non-ASCII character is carried by
      its UTF-8 bytes, which leaves [startswith], [endswith], [in] set
      membership and concatenation unchanged.
    - A Python [bytes] value is a [list byte].
    - A Python [int] is a [Z]; the one float expression of the program,
      [printable / len(chunk) > 0.85], is evaluated on binary64 floats.
    - Operations the source guards with [try]/[except] are fallible and
      return [option].  Of those it does not guard, opening the output
      file, writing text to it and printing the summary can raise: the
      exception is not caught, the interpreter prints the traceback and
      the exit status is 1.
    - The file system is a record of oracles, read-only during a run,
      and every call to it is logged in a trace of events; a directory
      tree is finite, a symbolic link to a directory being a node with
      its target's content. *)

From Stdlib Require Import ZArith List Bool String Ascii Lia.
From Stdlib.Strings Require Import Byte.
From Stdlib Require Import Floats Uint63 DecimalString QArith.
Import ListNotations.

Set Warnings "-register-all".

Open Scope string_scope.
Open Scope list_scope.
Open Scope Z_scope.

(** ** Python built-ins on [str] used by the program *)
Module Py.

(** [s.startswith(p)] *)
Definition startswith (s p : string) : bool := String.prefix p s.

(** [s.endswith(p)] *)
Fixpoint endswith (s p : string) : bool :=
  if String.eqb s p then true
  else match s with
       | EmptyString => false
       | String _ r => endswith r p
       end.

Definition lower_ascii (c : ascii) : ascii :=
  let n := nat_of_ascii c in
  if (Nat.leb 65 n && Nat.leb n 90)%bool then ascii_of_nat (n + 32) else c.

(** [s.rfind(c)]: index of the last occurrence of [c], or -1. *)
Fixpoint rfind_from (c : ascii) (s : string) (i last : Z) : Z :=
  match s with
  | EmptyString => last
  | String a r => rfind_from c r (i + 1) (if Ascii.eqb a c then i else last)
  end.

Definition rfind (c : ascii) (s : string) : Z := rfind_from c s 0 (-1).

(** The slice [s[i:j]] for [0 <= i]. *)
Definition slice (s : string) (i j : Z) : string :=
  String.substring (Z.to_nat i) (Z.to_nat (j - i)) s.

Definition len (s : string) : Z := Z.of_nat (String.length s).

(** [x in S] for a set of strings. *)
Definition mem (x : string) (S : list string) : bool :=
  existsb (String.eqb x) S.

(** The one-character string ["\n"]. *)
Definition NL : string := String "010"%char EmptyString.

(** Truth value of a list: non-empty. *)
Definition truthy {A : Type} (l : list A) : bool :=
  match l with [] => false | _ :: _ => true end.

(** [l.remove(x)]: drops the first occurrence of [x].  Python raises
    [ValueError] when [x] is absent; [remove] then leaves [l] as it is,
    and [walk_files] is shown never to call it so. *)
Fixpoint remove (x : string) (l : list string) : list string :=
  match l with
  | [] => []
  | y :: r => if String.eqb y x then r else y :: remove x r
  end.

(** [str(n)] for an [int]. *)
Definition str_of_int (n : Z) : string :=
  NilZero.string_of_int (Z.to_int n).

(** [sum(g)] of a sequence of booleans. *)
Fixpoint sum (l : list bool) : Z :=
  match l with
  | [] => 0
  | b :: r => (if b then 1 else 0) + sum r
  end.

(** [a / b] on two small non-negative [int]s: both convert exactly to
    binary64 (they are below 2^53) and the quotient is rounded once. *)
Definition truediv (a b : Z) : float :=
  PrimFloat.div (PrimFloat.of_uint63 (Uint63.of_Z a))
                (PrimFloat.of_uint63 (Uint63.of_Z b)).

End Py.

(** ** [os.path] on POSIX *)
Module OsPath.

Definition sep : ascii := "/"%char.
Definition extsep : ascii := "."%char.

(** [posixpath.basename]: [i = p.rfind('/') + 1; return p[i:]]. *)
Definition basename (p : string) : string :=
  let i := Py.rfind sep p + 1 in
  Py.slice p i (Py.len p).

(** [genericpath._splitext(p, '/', None, '.')], as [posixpath.splitext]
    calls it. *)
Definition splitext (p : string) : string * string :=
  let sepIndex := Py.rfind sep p in
  let dotIndex := Py.rfind extsep p in
  if (sepIndex <? dotIndex)
     && existsb (fun c => negb (Ascii.eqb c extsep))
          (list_ascii_of_string (Py.slice p (sepIndex + 1) dotIndex))
  then (Py.slice p 0 dotIndex, Py.slice p dotIndex (Py.len p))
  else (p, EmptyString).

(** [posixpath.join(a, b)] for one component [b]. *)
Definition join (a b : string) : string :=
  if Py.startswith b "/" then b
  else if String.eqb a "" || Py.endswith a "/" then (a ++ b)%string
  else (a ++ "/" ++ b)%string.

End OsPath.

(** ** Module constants *)

Definition DEFAULT_EXCLUDED_DIRS : list string :=
  [ ".git"; "node_modules"; "target"; "bin"; "obj"; "build"; "dist";
    "vendor"; "__pycache__" ].

Definition DEFAULT_EXCLUDED_EXTS : list string :=
  [ ".png"; ".jpg"; ".jpeg"; ".gif"; ".webp"; ".bmp"; ".ico"; ".psd";
    ".pdf";
    ".zip"; ".rar"; ".7z"; ".tar"; ".gz"; ".bz2"; ".xz";
    ".mp3"; ".wav"; ".ogg"; ".flac";
    ".mp4"; ".mov"; ".avi"; ".mkv"; ".webm";
    ".ttf"; ".otf"; ".woff"; ".woff2";
    ".exe"; ".dll"; ".so"; ".dylib"; ".a"; ".o";
    ".class"; ".jar";
    ".blend"; ".fbx"; ".obj"; ".glb"; ".gltf" ].

(** The default of [is_probably_text]'s parameter [sample_size]. *)
Definition DEFAULT_SAMPLE_SIZE : nat := 4096.

(** The literal [0.85]: the binary64 number nearest to 85/100. *)
Definition TEXT_RATIO : float := 0x1.b333333333333p-1%float.

(** ** The file system and the events of a run *)

(** A directory entry as [os.walk] classifies it.  [Dir name islink
    children]: [islink] tells a symbolic link to a directory, [children]
    is what listing it gives. *)
Inductive entry : Type :=
| File (name : string)
| Dir (name : string) (islink : bool) (children : list entry).

(** What the program can observe of the file system.  A [None] stands
    for the exception the source catches at that call. *)
Record filesystem : Type := {
  (** [os.path.isdir(p)] *)
  fs_isdir : string -> bool;
  (** the directory tree at [p], as [os.walk] explores it *)
  fs_tree : string -> entry;
  (** [os.path.getsize(p)]; [None] when it raises [OSError] *)
  fs_getsize : string -> option Z;
  (** the bytes [open(p, "rb")] gives; [None] when opening or reading
      raises *)
  fs_bytes : string -> option (list byte);
  (** [open(p, "r", encoding=enc, errors="replace").read()], called as
      [fs_text p enc]: the decoded text, every undecodable byte already
      replaced by the codec; [None] when opening or reading raises *)
  fs_text : string -> string -> option string;
  (** whether [open(p, "w", encoding="utf-8", newline="\n")] succeeds;
      [false] when it raises [OSError] *)
  fs_open_out : string -> bool
}.

Inductive event : Type :=
| EvIsdir (p : string)
| EvGetsize (p : string)
| EvReadBytes (p : string) (n : nat)
| EvReadText (p : string) (enc : string)
| EvOpenOut (p : string) (mode : string)
| EvWalk (root : string)
| EvWrite (s : string)
| EvCloseOut
| EvStdout (s : string)
| EvStderr (s : string)
| EvTraceback (exn : string).

(** A computation reads the file system and logs its events. *)
Definition IO (A : Type) : Type := filesystem -> A * list event.

Definition ret {A : Type} (a : A) : IO A := fun _ => (a, []).

Definition bind {A B : Type} (m : IO A) (k : A -> IO B) : IO B :=
  fun fs =>
    let (a, t1) := m fs in
    let (b, t2) := k a fs in
    (b, t1 ++ t2).

Definition call {A : Type} (ev : event) (f : filesystem -> A) : IO A :=
  fun fs => (f fs, [ev]).

Definition emit (ev : event) : IO unit := fun _ => (tt, [ev]).

Declare Scope io_scope.
Delimit Scope io_scope with io.
Notation "x <- m ;; k" := (bind m (fun x => k))
  (at level 61, m at next level, right associativity) : io_scope.
Notation "m ;; k" := (bind m (fun _ => k))
  (at level 61, right associativity) : io_scope.
Open Scope io_scope.

(** ** [is_probably_text] *)

Definition text_chars : list byte :=
  flat_map (fun n => match Byte.of_nat n with Some b => [b] | None => [] end)
           (seq 32 95)
  ++ [x0a; x0d; x09; x0c; x08].

Definition byte_in (b : byte) (l : list byte) : bool :=
  existsb (Byte.eqb b) l.

(** The part of [is_probably_text] after the sample was read. *)
Definition classify_chunk (chunk : list byte) : bool :=
  if byte_in x00 chunk then false
  else match chunk with
       | [] => true
       | _ =>
         let printable := Py.sum (map (fun c => byte_in c text_chars) chunk) in
         PrimFloat.ltb TEXT_RATIO
           (Py.truediv printable (Z.of_nat (List.length chunk)))
       end.

Definition is_probably_text (path : string) (sample_size : nat) : IO bool :=
  r <- call (EvReadBytes path sample_size)
            (fun fs => option_map (firstn sample_size) (fs_bytes fs path)) ;;
  match r with
  | None => ret false
  | Some chunk => ret (classify_chunk chunk)
  end.

(** ** Command-line arguments, as [argparse] delivers them *)
Record Args : Type := {
  folder : string;
  output : string;
  include : list string;
  exclude : list string;
  max_bytes : Z;
  use_path : bool;
  show_hidden : bool;
  follow_symlinks : bool;
  encoding : string
}.

(** ** [walk_files] *)

Definition dir_names (children : list entry) : list string :=
  flat_map (fun e => match e with Dir n _ _ => [n] | File _ => [] end) children.

Definition file_names (children : list entry) : list string :=
  flat_map (fun e => match e with File n => [n] | Dir _ _ _ => [] end) children.

(** The test of the first loop of [walk_files]. *)
Definition pruned_dir (d : string) : bool :=
  Py.mem d DEFAULT_EXCLUDED_DIRS || Py.startswith d ".".

(** The two loops of [walk_files] over [dirnames]: collect the names to
    prune, then remove them one by one, in place. *)
Definition prune_dirnames (dirnames : list string) : list string :=
  let pruned := filter pruned_dir dirnames in
  fold_left (fun ds d => Py.remove d ds) pruned dirnames.

(** [os.walk(root, followlinks=...)], top-down, with the generator body
    of [walk_files] run at each directory: the directory's files are
    yielded, then [os.walk] descends into the names left in [dirnames],
    resolving each against the directory's content, and into a symbolic
    link only when [followlinks] is set.  [tree] is the directory at
    [root]; its own name and link flag are not consulted, and a [root]
    that cannot be listed yields nothing. *)
Fixpoint walk_files (root : string) (follow_symlinks : bool)
    (tree : entry) {struct tree} : list string :=
  match tree with
  | File _ => []
  | Dir _ _ children =>
    let dirpath := root in
    let dirnames := prune_dirnames (dir_names children) in
    map (fun fname => OsPath.join dirpath fname) (file_names children)
    ++ flat_map
         (fun d =>
            (fix descend (l : list entry) : list string :=
               match l with
               | [] => []
               | c :: r =>
                 match c with
                 | File _ => descend r
                 | Dir n islink _ =>
                   if String.eqb n d
                   then if follow_symlinks || negb islink
                        then walk_files (OsPath.join dirpath d)
                               follow_symlinks c
                        else []
                   else descend r
                 end
               end) children)
         dirnames
  end.

(** ** Filtering and emission

    Four library functions are parameters of what follows:
    [fnmatch.fnmatch], [str.lower], [os.path.abspath] (it depends on the
    working directory) and [os.path.relpath]; and so are two tests on
    texts: [encodable], whether a text can be encoded in UTF-8 (a text
    holding a lone surrogate cannot, and [out.write] then raises
    [UnicodeEncodeError]), and [printable], whether the encoding of
    standard output can encode a text ([print] raises
    [UnicodeEncodeError] when it cannot; the diagnostic stream escapes
    what it cannot encode and does not raise). *)
Section Concatenator.

Variable fnmatch : string -> string -> bool.
Variable lower : string -> string.
Variable abspath : string -> string.
Variable relpath : string -> string -> string.
Variable encodable : string -> bool.
Variable printable : string -> bool.

Definition match_any (patterns : list string) (name : string) : bool :=
  existsb (fun p => fnmatch name p) patterns.

Definition should_skip_file (path : string) (args : Args) : IO bool :=
  let base := OsPath.basename path in
  if negb (show_hidden args) && Py.startswith base "." then ret true
  else
    size <- call (EvGetsize path) (fun fs => fs_getsize fs path) ;;
    match size with
    | None => ret true
    | Some n =>
      if n >? max_bytes args then ret true
      else
        let ext := lower (snd (OsPath.splitext base)) in
        if Py.mem ext DEFAULT_EXCLUDED_EXTS && negb (Py.truthy (include args))
        then ret true
        else if Py.truthy (exclude args) && match_any (exclude args) base
        then ret true
        else if Py.truthy (include args)
                && negb (match_any (include args) base)
        then ret true
        else
          text <- is_probably_text path DEFAULT_SAMPLE_SIZE ;;
          if negb text then ret true else ret false
    end.

(** The writes of one block, lines 143 to 147. *)
Definition write_block (header content : string) : IO unit :=
  emit (EvWrite (header ++ ":" ++ Py.NL)) ;;
  emit (EvWrite content) ;;
  (if negb (Py.endswith content Py.NL) then emit (EvWrite Py.NL) else ret tt) ;;
  emit (EvWrite Py.NL).

(** The [for] loop of [main] over the paths [walk_files] yields;
    [count] is the loop's counter, returned at the end. *)
Fixpoint main_loop (args : Args) (root : string) (paths : list string)
    (count : Z) : IO Z :=
  match paths with
  | [] => ret count
  | path :: rest =>
    skip <- should_skip_file path args ;;
    if skip then main_loop args root rest count
    else
      let rel := relpath path root in
      let header := if use_path args then rel else OsPath.basename path in
      r <- call (EvReadText path (encoding args))
                (fun fs => fs_text fs path (encoding args)) ;;
      match r with
      | None => main_loop args root rest count
      | Some content =>
        write_block header content ;;
        main_loop args root rest (count + 1)
      end
  end.

(** The events of a computation up to the first [out.write] that
    raises: that write puts nothing in the file and nothing after it
    happens.  The flag tells whether the computation ran to its end. *)
Fixpoint until_failed_write (tr : list event) : list event * bool :=
  match tr with
  | [] => ([], true)
  | EvWrite s :: r =>
    if encodable s
    then let (t, finished) := until_failed_write r in (EvWrite s :: t, finished)
    else ([], false)
  | e :: r =>
    let (t, finished) := until_failed_write r in (e :: t, finished)
  end.

(** [m], cut at the first write that raises; [None] is the exception. *)
Definition attempt {A : Type} (m : IO A) : IO (option A) :=
  fun fs =>
    let (a, tr) := m fs in
    let (t, finished) := until_failed_write tr in
    (if finished then Some a else None, t).

(** [main], after [parse_args].  The result is the exit status: 1 from
    [sys.exit(1)] and from an exception that is not caught, 0 at the
    end of the script.  The [with] statement closes the output file on
    both ways out of its body. *)
Definition main (args : Args) : IO Z :=
  let root := abspath (folder args) in
  isdir <- call (EvIsdir root) (fun fs => fs_isdir fs root) ;;
  if negb isdir then
    emit (EvStderr ("✖ La ruta no es una carpeta: " ++ root ++ Py.NL)) ;;
    ret 1
  else
    opened <- (fun fs => (fs_open_out fs (output args), [])) ;;
    if negb opened then
      emit (EvTraceback "OSError") ;;
      ret 1
    else
      emit (EvOpenOut (output args) "w") ;;
      tree <- call (EvWalk root) (fun fs => fs_tree fs root) ;;
      body <- attempt (main_loop args root
                         (walk_files root (follow_symlinks args) tree) 0) ;;
      emit EvCloseOut ;;
      match body with
      | None =>
        emit (EvTraceback "UnicodeEncodeError") ;;
        ret 1
      | Some count =>
        let summary := ("✔ Listo. Archivos incluidos: "
                        ++ Py.str_of_int count
                        ++ Py.NL ++ "→ " ++ output args ++ Py.NL)%string in
        if printable summary then
          emit (EvStdout summary) ;;
          ret 0
        else
          emit (EvTraceback "UnicodeEncodeError") ;;
          ret 1
      end.

End Concatenator.

(** ** Specification-side definitions *)

(** A byte the heuristic counts as text: printable ASCII, codes 32 to
    126, or one of newline, carriage return, tab, form feed, backspace. *)
Definition is_text_byte (b : byte) : bool :=
  let n := Byte.to_N b in
  ((32 <=? n) && (n <=? 126))%N
  || existsb (N.eqb n) [10; 13; 9; 12; 8]%N.

Definition text_count (sample : list byte) : nat :=
  List.length (filter is_text_byte sample).

(** The fraction [count / len] is strictly greater than 85/100, on the
    rationals. *)
Definition fraction_exceeds_085 (count len : nat) : bool :=
  negb (Qle_bool (Z.of_nat count # Pos.of_nat len) (85 # 100)).

(** The classification as the specification words it; [None] is the
    sample that could not be read. *)
Definition probably_text_spec (sample : option (list byte)) : bool :=
  match sample with
  | None => false
  | Some s =>
    if existsb (Byte.eqb x00) s then false
    else if Nat.eqb (List.length s) 0 then true
    else fraction_exceeds_085 (text_count s) (List.length s)
  end.

(** The float comparison of [classify_chunk] against the exact one, on
    machine integers: used to check every sample length up to 4096. *)
Definition ratio_agrees (p n : int) : bool :=
  Bool.eqb
    (PrimFloat.ltb TEXT_RATIO
       (PrimFloat.div (PrimFloat.of_uint63 p) (PrimFloat.of_uint63 n)))
    (Uint63.ltb (Uint63.mul 17 n) (Uint63.mul 20 p)).

Fixpoint ratio_row (n p : int) (fuel : nat) : bool :=
  match fuel with
  | O => true
  | S k => ratio_agrees p n && ratio_row n (Uint63.add p 1) k
  end.

Fixpoint ratio_rows (n : int) (fuel width : nat) : bool :=
  match fuel with
  | O => true
  | S k => ratio_row n 0 width && ratio_rows (Uint63.add n 1) k width
  end.

(** ** The filter as an ordered list of rules *)
Section FilterRules.

Variable fnmatch : string -> string -> bool.
Variable lower : string -> string.

(** A rule looks at a candidate and says whether it triggers. *)
Definition rule : Type := string -> Args -> IO bool.

(** 1. Hidden name, unless hidden files are shown. *)
Definition rule_hidden : rule := fun path args =>
  ret (negb (show_hidden args)
       && Py.startswith (OsPath.basename path) ".").

(** 2. Size above [max_bytes], or size unknown. *)
Definition rule_size : rule := fun path args =>
  size <- call (EvGetsize path) (fun fs => fs_getsize fs path) ;;
  ret (match size with
       | None => true
       | Some n => max_bytes args <? n
       end).

(** 3. Extension in the default set, unless include patterns were given. *)
Definition rule_extension : rule := fun path args =>
  ret (match include args with
       | [] => Py.mem (lower (snd (OsPath.splitext (OsPath.basename path))))
                      DEFAULT_EXCLUDED_EXTS
       | _ :: _ => false
       end).

(** 4. Base name matched by an exclude pattern. *)
Definition rule_exclude : rule := fun path args =>
  ret (match_any fnmatch (exclude args) (OsPath.basename path)).

(** 5. Include patterns given and none matches the base name. *)
Definition rule_include : rule := fun path args =>
  ret (match include args with
       | [] => false
       | _ :: _ => negb (match_any fnmatch (include args)
                                   (OsPath.basename path))
       end).

(** 6. Content not probably text. *)
Definition rule_binary : rule := fun path args =>
  text <- is_probably_text path DEFAULT_SAMPLE_SIZE ;;
  ret (negb text).

(** Rules run in order; the first that triggers decides, and the rules
    after it are not run. *)
Fixpoint first_match (rules : list rule) (path : string) (args : Args)
    : IO bool :=
  match rules with
  | [] => ret false
  | r :: rest =>
    hit <- r path args ;;
    if hit then ret true else first_match rest path args
  end.

Definition filter_rules : list rule :=
  [rule_hidden; rule_size; rule_extension; rule_exclude; rule_include;
   rule_binary].

(** The rules after the size rule. *)
Definition rules_after_size : list rule :=
  [rule_extension; rule_exclude; rule_include; rule_binary].

End FilterRules.

(** ** The output text *)

(** What a trace writes to the output stream. *)
Fixpoint written (tr : list event) : string :=
  match tr with
  | [] => EmptyString
  | EvWrite s :: r => (s ++ written r)%string
  | _ :: r => written r
  end.

(** The block of one file, as the specification lists its parts. *)
Definition block (header content : string) : string :=
  (header ++ ":" ++ Py.NL ++ content
   ++ (if Py.endswith content Py.NL then "" else Py.NL)
   ++ Py.NL)%string.

(** The output text made of the blocks of [(header, content)] pairs. *)
Fixpoint blocks (l : list (string * string)) : string :=
  match l with
  | [] => EmptyString
  | (header, content) :: r => (block header content ++ blocks r)%string
  end.

(** The texts a trace writes, one per [out.write]. *)
Definition writes (tr : list event) : list string :=
  flat_map (fun e => match e with EvWrite s => [s] | _ => [] end) tr.

(** The texts written for one block, one per [out.write]. *)
Definition block_parts (header content : string) : list string :=
  [(header ++ ":" ++ Py.NL)%string; content]
  ++ (if Py.endswith content Py.NL then [] else [Py.NL])
  ++ [Py.NL].

Section Emission.

Variable fnmatch : string -> string -> bool.
Variable lower : string -> string.
Variable relpath : string -> string -> string.

Definition header_of (args : Args) (root path : string) : string :=
  if use_path args then relpath path root else OsPath.basename path.

(** The candidates that give a block: accepted by the filter and read
    without error, each with its header and its text. *)
Definition emitted (args : Args) (root : string) (fs : filesystem)
    (paths : list string) : list (string * string) :=
  flat_map
    (fun path =>
       if fst (should_skip_file fnmatch lower path args fs) then []
       else match fs_text fs path (encoding args) with
            | None => []
            | Some content => [(header_of args root path, content)]
            end)
    paths.

End Emission.

(** ** Files on disk across runs *)

Definition store : Type := string -> option string.

Definition store_set (st : store) (p v : string) : store :=
  fun q => if String.eqb q p then Some v else st q.

(** The effect of a trace on the files: opening [p] creates it when it
    is absent and, in mode ["w"], empties it; a write appends to the
    file that is open. *)
Fixpoint replay (tr : list event) (cur : option string) (st : store)
    : store :=
  match tr with
  | [] => st
  | EvOpenOut p mode :: r =>
    replay r (Some p)
      (if String.eqb mode "w" then store_set st p ""
       else match st p with
            | Some _ => st
            | None => store_set st p ""
            end)
  | EvWrite s :: r =>
    match cur with
    | Some p =>
      let old := match st p with Some t => t | None => EmptyString end in
      replay r cur (store_set st p (old ++ s))
    | None => replay r cur st
    end
  | EvCloseOut :: r => replay r None st
  | _ :: r => replay r cur st
  end.

(** Events of the loop body: none opens or closes the output. *)
Definition body_event (e : event) : bool :=
  match e with
  | EvOpenOut _ _ | EvCloseOut => false
  | _ => true
  end.

(** Events that look at a candidate file. *)
Definition file_event (e : event) : bool :=
  match e with
  | EvGetsize _ | EvReadBytes _ _ | EvReadText _ _ => true
  | _ => false
  end.

(** One run of the tool, the file system being [fs] and the files
    written so far [st]: exit status, trace and files afterwards. *)
Definition run (fnmatch : string -> string -> bool)
    (lower abspath : string -> string) (relpath : string -> string -> string)
    (encodable printable : string -> bool)
    (args : Args) (fs : filesystem) (st : store) : Z * list event * store :=
  let (status, tr) :=
    main fnmatch lower abspath relpath encodable printable args fs in
  (status, tr, replay tr None st).

(** The directory at [root] is for [fs2] what it is for [fs1]: same
    answer to the directory test, same tree, and for every path the
    traversal yields the same size, bytes and text.  Nothing is asked of
    the rest of the file system. *)
Definition same_directory (root : string) (follow : bool)
    (fs1 fs2 : filesystem) : Prop :=
  fs_isdir fs1 root = fs_isdir fs2 root
  /\ fs_tree fs1 root = fs_tree fs2 root
  /\ forall p, In p (walk_files root follow (fs_tree fs1 root)) ->
       fs_getsize fs1 p = fs_getsize fs2 p
       /\ fs_bytes fs1 p = fs_bytes fs2 p
       /\ forall enc, fs_text fs1 p enc = fs_text fs2 p enc.

(** ** Traversal, specification side *)

(** The second loop of [walk_files] with the failure of [list.remove]
    written out: [None] is the [ValueError] for an absent name. *)
Fixpoint remove_each (pruned dirnames : list string)
    : option (list string) :=
  match pruned with
  | [] => Some dirnames
  | d :: r =>
    if Py.mem d dirnames then remove_each r (Py.remove d dirnames) else None
  end.

(** Every directory strictly below the root that [walk_files] prunes is
    emptied. *)
Fixpoint strip_below (tree : entry) : entry :=
  match tree with
  | File n => File n
  | Dir n islink children =>
    Dir n islink
      (map (fun c =>
              match c with
              | File _ => c
              | Dir d l _ => if pruned_dir d then Dir d l [] else strip_below c
              end) children)
  end.

(** [reaches follow top tree p]: the file path [p] lies in [tree], which
    sits at [top], and every directory crossed below [top] on the way to
    it is neither pruned nor an unfollowed symbolic link. *)
Inductive reaches (follow : bool) : string -> entry -> string -> Prop :=
| reaches_file top n islink children f :
    In (File f) children ->
    reaches follow top (Dir n islink children) (OsPath.join top f)
| reaches_dir top n islink children d l sub p :
    In (Dir d l sub) children ->
    pruned_dir d = false ->
    follow || negb l = true ->
    reaches follow (OsPath.join top d) (Dir d l sub) p ->
    reaches follow top (Dir n islink children) p.

(** The descent of [os.walk] into the name [d], on its own. *)
Fixpoint descend (follow : bool) (dirpath d : string) (l : list entry)
    : list string :=
  match l with
  | [] => []
  | c :: r =>
    match c with
    | File _ => descend follow dirpath d r
    | Dir n islink _ =>
      if String.eqb n d
      then if follow || negb islink
           then walk_files (OsPath.join dirpath d) follow c
           else []
      else descend follow dirpath d r
    end
  end.

(** Induction on a tree, with the hypothesis for every child. *)
Fixpoint entry_ind' (P : entry -> Prop)
    (HF : forall n, P (File n))
    (HD : forall n l children, Forall P children -> P (Dir n l children))
    (e : entry) {struct e} : P e :=
  match e with
  | File n => HF n
  | Dir n l children =>
    HD n l children
       ((fix go (cs : list entry) : Forall P cs :=
           match cs with
           | [] => Forall_nil P
           | c :: r => Forall_cons c (entry_ind' P HF HD c) (go r)
           end) children)
  end.

(** ** A concrete setting to run the model on *)

(** [fnmatch.fnmatch(name, pat)] on the patterns made of literal
    characters, [*] and [?]. *)
Fixpoint glob (pat : string) : string -> bool :=
  match pat with
  | EmptyString => fun name => String.eqb name ""
  | String c rest =>
    if Ascii.eqb c "*" then
      fix star (name : string) : bool :=
        glob rest name
        || match name with
           | EmptyString => false
           | String _ tail => star tail
           end
    else
      fun name =>
        match name with
        | EmptyString => false
        | String a tail => (Ascii.eqb c "?" || Ascii.eqb c a) && glob rest tail
        end
  end.

Definition fnmatch_basic (name pat : string) : bool := glob pat name.

(** [str.lower] on a text whose cased characters are ASCII letters. *)
Fixpoint lower_basic (s : string) : string :=
  match s with
  | EmptyString => EmptyString
  | String c r => String (Py.lower_ascii c) (lower_basic r)
  end.

(** Every text can be encoded in UTF-8 and by standard output. *)
Definition encodable_all (s : string) : bool := true.

Definition printable_all (s : string) : bool := true.

(** [os.path.abspath] on a path that is absolute and normalised. *)
Definition abspath_id (p : string) : string := p.

(** [os.path.relpath(path, root)] on a [path] that starts with [root/]. *)
Definition relpath_below (path root : string) : string :=
  Py.slice path (Py.len root + 1) (Py.len path).

Definition demo_tree : entry :=
  Dir "proj" false
    [ File "a.py"; File "b.png"; File ".secret"; File "big.txt";
      File "exact.txt";
      Dir "docs" false [File "x.md"; File "y.txt"];
      Dir "build" false [File "out.txt"];
      Dir ".git" false [File "config"];
      Dir "link" true [File "z.txt"] ].

(** The first bytes of a PNG file. *)
Definition png_bytes : list byte :=
  [x89; x50; x4e; x47; x0d; x0a; x1a; x0a; x00; x00; x00; x0d].

Definition demo_fs : filesystem := {|
  fs_isdir := fun p => String.eqb p "/proj";
  fs_tree := fun p => if String.eqb p "/proj" then demo_tree else File p;
  fs_getsize := fun p =>
    if String.eqb p "/proj/big.txt" then Some 1000001
    else if String.eqb p "/proj/exact.txt" then Some 1000000
    else if String.eqb p "/proj/gone.txt" then None
    else Some 10;
  fs_bytes := fun p =>
    if String.eqb p "/proj/b.png" then Some png_bytes
    else Some (list_byte_of_string "x = 1 + 2");
  fs_text := fun p enc =>
    if String.eqb p "/proj/docs/y.txt" then None
    else if String.eqb p "/proj/docs/x.md" then Some ("# title" ++ Py.NL)%string
    else Some "x = 1 + 2";
  fs_open_out := fun _ => true
|}.


(** The example directory as a second run finds it: the output file of
    the first run now exists, outside the directory. *)
Definition rerun_fs : filesystem := {|
  fs_isdir := fs_isdir demo_fs;
  fs_tree := fs_tree demo_fs;
  fs_getsize := fun p =>
    if String.eqb p "/work/contenido_carpeta.txt" then Some 62
    else fs_getsize demo_fs p;
  fs_bytes := fun p =>
    if String.eqb p "/work/contenido_carpeta.txt"
    then Some (list_byte_of_string "a.py:")
    else fs_bytes demo_fs p;
  fs_text := fun p enc =>
    if String.eqb p "/work/contenido_carpeta.txt" then Some "a.py:"
    else fs_text demo_fs p enc;
  fs_open_out := fun _ => true
|}.

Definition demo_args : Args := {|
  folder := "/proj";
  output := "contenido_carpeta.txt";
  include := [];
  exclude := [];
  max_bytes := 1000000;
  use_path := false;
  show_hidden := false;
  follow_symlinks := false;
  encoding := "utf-8"
|}.

Definition with_include (args : Args) (patterns : list string) : Args := {|
  folder := folder args;
  output := output args;
  include := patterns;
  exclude := exclude args;
  max_bytes := max_bytes args;
  use_path := use_path args;
  show_hidden := show_hidden args;
  follow_symlinks := follow_symlinks args;
  encoding := encoding args
|}.

(** ** Further specification-side definitions *)

(** Every symbolic link to a directory below the root is emptied. *)
Fixpoint strip_links (tree : entry) : entry :=
  match tree with
  | File n => File n
  | Dir n islink children =>
    Dir n islink
      (map (fun c =>
              match c with
              | File _ => c
              | Dir d l _ => if l then Dir d l [] else strip_links c
              end) children)
  end.

(** The file system with every pruned directory emptied. *)
Definition strip_fs (fs : filesystem) : filesystem := {|
  fs_isdir := fs_isdir fs;
  fs_tree := fun p => strip_below (fs_tree fs p);
  fs_getsize := fs_getsize fs;
  fs_bytes := fs_bytes fs;
  fs_text := fs_text fs;
  fs_open_out := fs_open_out fs
|}.


(** The sizes of the samples a trace reads in binary mode. *)
Definition sample_sizes (tr : list event) : list nat :=
  flat_map (fun e => match e with EvReadBytes _ n => [n] | _ => [] end) tr.

(** A name without path separator. *)
Fixpoint slash_free (s : string) : bool :=
  match s with
  | EmptyString => true
  | String c r => negb (Ascii.eqb c OsPath.sep) && slash_free r
  end.

(** Every name in the tree, below its root, is free of separators. *)
Fixpoint names_slash_free (tree : entry) : bool :=
  match tree with
  | File _ => true
  | Dir _ _ children =>
    forallb (fun c =>
               match c with
               | File f => slash_free f
               | Dir d _ _ => slash_free d && names_slash_free c
               end) children
  end.

(** The names of all the files of a tree, at any depth. *)
Fixpoint all_file_names (tree : entry) : list string :=
  match tree with
  | File _ => []
  | Dir _ _ children =>
    file_names children ++ flat_map all_file_names children
  end.

Fixpoint distinct (l : list string) : bool :=
  match l with
  | [] => true
  | x :: r => negb (Py.mem x r) && distinct r
  end.

(** In every directory of the tree the subdirectories have distinct
    names. *)
Fixpoint unique_dirs (tree : entry) : bool :=
  match tree with
  | File _ => true
  | Dir _ _ children =>
    distinct (dir_names children) && forallb unique_dirs children
  end.

Definition with_max_bytes (args : Args) (n : Z) : Args := {|
  folder := folder args;
  output := output args;
  include := include args;
  exclude := exclude args;
  max_bytes := n;
  use_path := use_path args;
  show_hidden := show_hidden args;
  follow_symlinks := follow_symlinks args;
  encoding := encoding args
|}.

Definition with_exclude (args : Args) (patterns : list string) : Args := {|
  folder := folder args;
  output := output args;
  include := include args;
  exclude := patterns;
  max_bytes := max_bytes args;
  use_path := use_path args;
  show_hidden := show_hidden args;
  follow_symlinks := follow_symlinks args;
  encoding := encoding args
|}.

(** The UTF-8 bytes of a word written in Cyrillic letters, and a
    directory holding one file with them. *)
Definition cyrillic_bytes : list byte :=
  [xd0; x9f; xd1; x80; xd0; xb8; xd0; xb2; xd0; xb5; xd1; x82].

Definition cyrillic_fs : filesystem := {|
  fs_isdir := fun _ => true;
  fs_tree := fun p => Dir p false [File "hola.txt"];
  fs_getsize := fun _ => Some 12;
  fs_bytes := fun _ => Some cyrillic_bytes;
  fs_text := fun _ _ => Some "Привет";
  fs_open_out := fun _ => true
|}.

(** * Properties *)

(** ** The float test of [is_probably_text] is exact *)

Lemma ratio_rows_4096 : ratio_rows 1 4096 4097 = true.
Proof. vm_compute. reflexivity. Qed.

Lemma of_Z_succ (z : Z) : Uint63.of_Z (z + 1) = Uint63.add (Uint63.of_Z z) 1.
Proof.
  apply Uint63.to_Z_inj.
  rewrite Uint63.add_spec, !Uint63.of_Z_spec.
  change (Uint63.to_Z 1) with (1 mod wB)%Z.
  now rewrite <- Zplus_mod.
Qed.

Lemma ratio_row_sound (fuel : nat) : forall (n : int) (z q : Z),
  ratio_row n (Uint63.of_Z z) fuel = true ->
  (z <= q < z + Z.of_nat fuel)%Z ->
  ratio_agrees (Uint63.of_Z q) n = true.
Proof.
  induction fuel as [|k IH]; intros n z q Hrow Hq; [lia|].
  cbn [ratio_row] in Hrow. apply andb_prop in Hrow as [Hhead Htail].
  destruct (Z.eq_dec q z) as [->|Hne]; [exact Hhead|].
  rewrite <- of_Z_succ in Htail.
  apply (IH n (z + 1)%Z q Htail). lia.
Qed.

Lemma ratio_rows_sound (fuel : nat) : forall (width : nat) (z m q : Z),
  ratio_rows (Uint63.of_Z z) fuel width = true ->
  (z <= m < z + Z.of_nat fuel)%Z ->
  (0 <= q < Z.of_nat width)%Z ->
  ratio_agrees (Uint63.of_Z q) (Uint63.of_Z m) = true.
Proof.
  induction fuel as [|k IH]; intros width z m q Hrows Hm Hq; [lia|].
  cbn [ratio_rows] in Hrows. apply andb_prop in Hrows as [Hhead Htail].
  destruct (Z.eq_dec m z) as [->|Hne].
  - apply (ratio_row_sound width (Uint63.of_Z z) 0 q Hhead). lia.
  - rewrite <- of_Z_succ in Htail.
    apply (IH width (z + 1)%Z m q Htail); lia.
Qed.

Lemma wB_large : (2 ^ 20 < wB)%Z.
Proof. reflexivity. Qed.

Lemma small_mul_spec (k x : Z) :
  (0 <= k <= 20)%Z -> (0 <= x <= 4096)%Z ->
  Uint63.to_Z (Uint63.mul (Uint63.of_Z k) (Uint63.of_Z x)) = (k * x)%Z.
Proof.
  intros Hk Hx. pose proof wB_large as HwB.
  rewrite Uint63.mul_spec, !Uint63.of_Z_spec.
  rewrite (Z.mod_small k), (Z.mod_small x) by lia.
  apply Z.mod_small. nia.
Qed.

(** On every sample of at most 4096 bytes the binary64 test
    [printable / len(chunk) > 0.85] decides the exact inequality
    [17 * len < 20 * printable]. *)
Lemma float_test_exact (p n : Z) :
  (1 <= n <= 4096)%Z -> (0 <= p <= 4096)%Z ->
  PrimFloat.ltb TEXT_RATIO (Py.truediv p n) = (17 * n <? 20 * p)%Z.
Proof.
  intros Hn Hp.
  assert (H : ratio_agrees (Uint63.of_Z p) (Uint63.of_Z n) = true).
  { apply (ratio_rows_sound 4096 4097 1 n p ratio_rows_4096); lia. }
  unfold ratio_agrees in H. apply Bool.eqb_prop in H.
  unfold Py.truediv. rewrite H.
  destruct (Uint63.ltbP (Uint63.mul 17 (Uint63.of_Z n))
                        (Uint63.mul 20 (Uint63.of_Z p))) as [Hlt|Hlt];
    change 17%uint63 with (Uint63.of_Z 17) in Hlt;
    change 20%uint63 with (Uint63.of_Z 20) in Hlt;
    rewrite !small_mul_spec in Hlt by lia;
    symmetry; [apply Z.ltb_lt | apply Z.ltb_ge]; lia.
Qed.

(** ** [is_probably_text] against the specification *)

Lemma byte_in_text_chars (b : byte) : byte_in b text_chars = is_text_byte b.
Proof. destruct b; reflexivity. Qed.

Lemma sum_text_count (s : list byte) :
  Py.sum (map (fun c => byte_in c text_chars) s) = Z.of_nat (text_count s).
Proof.
  unfold text_count.
  induction s as [|b s IH]; [reflexivity|].
  cbn [map Py.sum filter]. rewrite IH, byte_in_text_chars.
  destruct (is_text_byte b); cbn [List.length]; lia.
Qed.

Lemma text_count_le (s : list byte) : (text_count s <= List.length s)%nat.
Proof. apply filter_length_le. Qed.

Lemma fraction_exceeds_085_exact (count len : nat) :
  (1 <= len)%nat ->
  fraction_exceeds_085 count len
  = (17 * Z.of_nat len <? 20 * Z.of_nat count)%Z.
Proof.
  intros Hlen. unfold fraction_exceeds_085, Qle_bool. cbn [Qnum Qden].
  replace (Z.pos (Pos.of_nat len)) with (Z.of_nat len)
    by (destruct len as [|k]; [lia|];
        now rewrite <- Pos.of_nat_succ, Zpos_P_of_succ_nat, Nat2Z.inj_succ).
  destruct (Z.leb_spec (Z.of_nat count * 100) (85 * Z.of_nat len));
    destruct (Z.ltb_spec (17 * Z.of_nat len) (20 * Z.of_nat count));
    cbn [negb]; first [reflexivity | lia].
Qed.

Lemma classify_chunk_spec (chunk : list byte) :
  (List.length chunk <= 4096)%nat ->
  classify_chunk chunk = probably_text_spec (Some chunk).
Proof.
  intros Hlen. unfold classify_chunk, probably_text_spec, byte_in.
  destruct (existsb (Byte.eqb x00) chunk); [reflexivity|].
  destruct chunk as [|b r]; [reflexivity|].
  set (s := b :: r) in *.
  replace (Nat.eqb (List.length s) 0) with false by reflexivity.
  rewrite sum_text_count.
  pose proof (text_count_le s) as Hle.
  assert (Hpos : (1 <= List.length s)%nat) by (subst s; cbn; lia).
  rewrite float_test_exact by lia.
  now rewrite fraction_exceeds_085_exact.
Qed.

(** C6.  The verdict of [is_probably_text] on a file is the one the
    specification gives for the sample of at most 4096 bytes read from
    the file's start: binary when the sample cannot be read, binary when
    it holds a null byte, text when it is empty, and otherwise text
    exactly when the fraction of its bytes that are printable ASCII
    (codes 32 to 126) or newline, carriage return, tab, form feed or
    backspace is strictly greater than 0.85. *)
Theorem is_probably_text_classifies (fs : filesystem) (path : string) :
  fst (is_probably_text path DEFAULT_SAMPLE_SIZE fs)
  = probably_text_spec (option_map (firstn 4096) (fs_bytes fs path)).
Proof.
  unfold is_probably_text, bind, call, ret, DEFAULT_SAMPLE_SIZE.
  destruct (fs_bytes fs path) as [bytes|];
    cbv beta iota zeta delta [option_map fst]; [|reflexivity].
  apply classify_chunk_spec.
  apply firstn_le_length.
Qed.

(** Case analysis on every test of a rule chain. *)
Ltac split_tests :=
  repeat match goal with
         | |- context [if ?b then _ else _] =>
           match b with
           | context [if _ then _ else _] => fail 1
           | _ => destruct b eqn:?
           end
         | |- context [match ?o with Some _ => _ | None => _ end] =>
           match o with
           | context [match _ with _ => _ end] => fail 1
           | _ => destruct o eqn:?
           end
         end.

(** ** [should_skip_file] and the rule list *)
Section FilterProperties.

Variable fnmatch : string -> string -> bool.
Variable lower : string -> string.

Lemma match_any_nil (name : string) : match_any fnmatch [] name = false.
Proof. reflexivity. Qed.

(** [should_skip_file] is the rule list run in order: same decision and
    same calls to the file system. *)
Lemma should_skip_file_first_match (path : string) (args : Args)
    (fs : filesystem) :
  should_skip_file fnmatch lower path args fs
  = first_match (filter_rules fnmatch lower) path args fs.
Proof.
  unfold should_skip_file, filter_rules, first_match, rule_hidden, rule_size,
    rule_extension, rule_exclude, rule_include, rule_binary.
  set (sniff := is_probably_text path DEFAULT_SAMPLE_SIZE). clearbody sniff.
  unfold bind, ret, call.
  destruct (negb (show_hidden args)
            && Py.startswith (OsPath.basename path) "."); [reflexivity|].
  destruct (fs_getsize fs path) as [n|]; [|reflexivity].
  rewrite Z.gtb_ltb.
  destruct (max_bytes args <? n); [reflexivity|].
  destruct (include args) as [|i il], (exclude args) as [|e el];
    cbn [Py.truthy negb andb];
    rewrite ?match_any_nil, ?andb_true_r, ?andb_false_r;
    repeat match goal with
           | |- context [if ?b then _ else _] =>
             match b with
             | context [if _ then _ else _] => fail 1
             | _ => destruct b
             end
           end;
    cbn [negb]; destruct (sniff fs) as [[|] tr];
    cbn; rewrite ?app_nil_r; reflexivity.
Qed.

Lemma first_match_false (rules : list rule) (path : string) (args : Args)
    (fs : filesystem) :
  fst (first_match rules path args fs) = false
  <-> forall r, In r rules -> fst (r path args fs) = false.
Proof.
  induction rules as [|r rest IH]; cbn [first_match].
  - split; [intros _ r [] | reflexivity].
  - unfold bind at 1. destruct (r path args fs) as [hit tr] eqn:Hr.
    destruct hit.
    + cbn. split; [discriminate|].
      intros H. specialize (H r (or_introl eq_refl)). now rewrite Hr in H.
    + destruct (first_match rest path args fs) as [b tr'] eqn:Hrest.
      cbn in IH |- *. rewrite IH. split.
      * intros H r' [<-|Hin]; [now rewrite Hr | now apply H].
      * intros H r' Hin. apply H. now right.
Qed.

Lemma first_match_cons (r : rule) (rest : list rule) (path : string)
    (args : Args) (fs : filesystem) :
  first_match (r :: rest) path args fs
  = if fst (r path args fs) then (true, snd (r path args fs))
    else (fst (first_match rest path args fs),
          snd (r path args fs) ++ snd (first_match rest path args fs)).
Proof.
  cbn [first_match]. unfold bind.
  destruct (r path args fs) as [[|] t]; cbn [fst snd].
  - unfold ret. now rewrite app_nil_r.
  - now destruct (first_match rest path args fs).
Qed.

(** An accepted file is one on which no rule triggers. *)
Lemma should_skip_file_rule_order_aux (path : string) (args : Args)
    (fs : filesystem) :
  fst (should_skip_file fnmatch lower path args fs) = false ->
  fst (rule_hidden path args fs) = false
  /\ fst (rule_size path args fs) = false
  /\ fst (rule_extension lower path args fs) = false
  /\ fst (rule_exclude fnmatch path args fs) = false
  /\ fst (rule_include fnmatch path args fs) = false
  /\ fst (rule_binary path args fs) = false.
Proof.
  rewrite should_skip_file_first_match, first_match_false.
  unfold filter_rules. intros H. repeat split; apply H; cbn; tauto.
Qed.

(** C1.  For every candidate path and configuration, [should_skip_file]
    is the six rules applied in the fixed order hidden name, size,
    default extension, exclude patterns, include patterns, binary
    content, the first rule that triggers deciding and no later rule
    being run (same decision, same calls to the file system); and a file
    is accepted if and only if none of the six rules triggers. *)
Theorem should_skip_file_rule_order (path : string) (args : Args)
    (fs : filesystem) :
  should_skip_file fnmatch lower path args fs
  = first_match
      [rule_hidden; rule_size; rule_extension lower; rule_exclude fnmatch;
       rule_include fnmatch; rule_binary] path args fs
  /\ (fst (should_skip_file fnmatch lower path args fs) = false
      <-> fst (rule_hidden path args fs) = false
          /\ fst (rule_size path args fs) = false
          /\ fst (rule_extension lower path args fs) = false
          /\ fst (rule_exclude fnmatch path args fs) = false
          /\ fst (rule_include fnmatch path args fs) = false
          /\ fst (rule_binary path args fs) = false).
Proof.
  split; [apply should_skip_file_first_match|].
  rewrite should_skip_file_first_match, first_match_false.
  unfold filter_rules. split.
  - intros H. repeat split; apply H; cbn; tauto.
  - intros (H1 & H2 & H3 & H4 & H5 & H6) r Hin. cbn in Hin.
    destruct Hin as [<-|[<-|[<-|[<-|[<-|[<-|[]]]]]]]; assumption.
Qed.

(** C4.  When at least one include pattern is supplied, the default
    extension rule is bypassed entirely: it never triggers and
    [should_skip_file] is the rule list without it; and only a file whose
    base name matches an include pattern can be accepted, every file
    that matches none being skipped. *)
Theorem include_patterns_bypass_and_gate (path : string) (args : Args)
    (fs : filesystem) :
  include args <> [] ->
  fst (rule_extension lower path args fs) = false
  /\ should_skip_file fnmatch lower path args fs
     = first_match
         [rule_hidden; rule_size; rule_exclude fnmatch;
          rule_include fnmatch; rule_binary] path args fs
  /\ (fst (should_skip_file fnmatch lower path args fs) = false ->
      match_any fnmatch (include args) (OsPath.basename path) = true)
  /\ (match_any fnmatch (include args) (OsPath.basename path) = false ->
      fst (should_skip_file fnmatch lower path args fs) = true).
Proof.
  intros Hinc.
  assert (Hgate : fst (should_skip_file fnmatch lower path args fs) = false ->
                  match_any fnmatch (include args) (OsPath.basename path)
                  = true).
  { intros Hacc.
    apply should_skip_file_rule_order_aux in Hacc.
    destruct Hacc as (_ & _ & _ & _ & Hrule & _).
    unfold rule_include, ret in Hrule. cbn [fst] in Hrule.
    destruct (include args); [contradiction|].
    now apply negb_false_iff in Hrule. }
  repeat split.
  - unfold rule_extension, ret. cbn [fst].
    destruct (include args); [contradiction | reflexivity].
  - assert (Hext : rule_extension lower path args fs = (false, [])).
    { unfold rule_extension, ret.
      destruct (include args); [contradiction | reflexivity]. }
    rewrite should_skip_file_first_match. unfold filter_rules.
    rewrite (first_match_cons rule_hidden), (first_match_cons rule_size),
      (first_match_cons (rule_extension lower)), Hext.
    rewrite (first_match_cons rule_hidden), (first_match_cons rule_size).
    cbn [fst snd app]. now rewrite <- surjective_pairing.
  - exact Hgate.
  - intros Hno.
    destruct (fst (should_skip_file fnmatch lower path args fs)) eqn:Hskip;
      [reflexivity|].
    rewrite (Hgate eq_refl) in Hno. discriminate.
Qed.

(** C5.  For a candidate the hidden-name rule lets through, the size rule
    skips the file exactly when [os.path.getsize] fails or reports a size
    strictly greater than [max_bytes], and nothing after it is run; a
    size of at most [max_bytes] passes on to the rules that follow.  So
    a file of exactly [max_bytes] bytes passes the size check and one of
    [max_bytes + 1] bytes is skipped. *)
Theorem size_rule_boundary (path : string) (args : Args) (fs : filesystem) :
  fst (rule_hidden path args fs) = false ->
  (fst (rule_size path args fs) = true
   <-> fs_getsize fs path = None
       \/ exists n, fs_getsize fs path = Some n /\ max_bytes args < n)
  /\ (fst (rule_size path args fs) = true ->
      should_skip_file fnmatch lower path args fs = (true, [EvGetsize path]))
  /\ (fst (rule_size path args fs) = false ->
      should_skip_file fnmatch lower path args fs
      = (fst (first_match (rules_after_size fnmatch lower) path args fs),
         EvGetsize path
         :: snd (first_match (rules_after_size fnmatch lower) path args fs)))
  /\ (fs_getsize fs path = Some (max_bytes args) ->
      fst (rule_size path args fs) = false)
  /\ (fs_getsize fs path = Some (max_bytes args + 1) ->
      fst (rule_size path args fs) = true).
Proof.
  intros Hvis.
  assert (Hsize : fst (rule_size path args fs)
                  = match fs_getsize fs path with
                    | None => true
                    | Some n => max_bytes args <? n
                    end).
  { unfold rule_size, bind, call, ret. reflexivity. }
  repeat split.
  - rewrite Hsize. destruct (fs_getsize fs path) as [n|].
    + intros H. right. exists n. split; [reflexivity|]. now apply Z.ltb_lt.
    + now left.
  - rewrite Hsize. intros [->|(n & -> & Hn)]; [reflexivity|].
    now apply Z.ltb_lt.
  - intros Htrig. rewrite should_skip_file_first_match.
    unfold filter_rules.
    rewrite (first_match_cons rule_hidden), (first_match_cons rule_size).
    rewrite Hvis, Htrig. reflexivity.
  - intros Hpass. rewrite should_skip_file_first_match.
    unfold filter_rules.
    rewrite (first_match_cons rule_hidden), (first_match_cons rule_size).
    rewrite Hvis, Hpass. reflexivity.
  - rewrite Hsize. intros ->. apply Z.ltb_irrefl.
  - rewrite Hsize. intros ->. apply Z.ltb_lt. lia.
Qed.

(** C10.  Include patterns do not bypass the content sniff: a file whose
    base name matches an include pattern is still skipped when
    [is_probably_text] classifies it as binary. *)
Theorem include_does_not_bypass_sniff (path : string) (args : Args)
    (fs : filesystem) :
  match_any fnmatch (include args) (OsPath.basename path) = true ->
  fst (is_probably_text path DEFAULT_SAMPLE_SIZE fs) = false ->
  fst (should_skip_file fnmatch lower path args fs) = true.
Proof.
  intros _ Hbin.
  destruct (fst (should_skip_file fnmatch lower path args fs)) eqn:Hskip;
    [reflexivity|].
  apply should_skip_file_rule_order_aux in Hskip.
  destruct Hskip as (_ & _ & _ & _ & _ & Hrule).
  unfold rule_binary, bind, ret in Hrule.
  destruct (is_probably_text path DEFAULT_SAMPLE_SIZE fs) as [t tr].
  cbn [fst] in Hbin, Hrule. subst t. discriminate.
Qed.

End FilterProperties.

Lemma include_patterns_bypass_and_gate_witness :
  include (with_include demo_args ["*.md"]) <> []
  /\ fst (should_skip_file fnmatch_basic lower_basic "/proj/docs/y.txt"
            (with_include demo_args ["*.md"]) demo_fs) = true.
Proof.
  split; [discriminate|].
  apply (include_patterns_bypass_and_gate fnmatch_basic lower_basic "/proj/docs/y.txt"
           (with_include demo_args ["*.md"]) demo_fs);
    [discriminate | reflexivity].
Defined.

Lemma size_rule_boundary_witness :
  fst (rule_hidden "/proj/exact.txt" demo_args demo_fs) = false
  /\ fst (rule_size "/proj/exact.txt" demo_args demo_fs) = false
  /\ fst (rule_size "/proj/big.txt" demo_args demo_fs) = true.
Proof.
  split; [reflexivity|]. split.
  - apply (size_rule_boundary fnmatch_basic lower_basic "/proj/exact.txt" demo_args
             demo_fs); reflexivity.
  - apply (size_rule_boundary fnmatch_basic lower_basic "/proj/big.txt" demo_args
             demo_fs); reflexivity.
Defined.

Lemma include_does_not_bypass_sniff_witness :
  match_any fnmatch_basic (include (with_include demo_args ["*.png"]))
            (OsPath.basename "/proj/b.png") = true
  /\ fst (is_probably_text "/proj/b.png" DEFAULT_SAMPLE_SIZE demo_fs) = false
  /\ fst (should_skip_file fnmatch_basic lower_basic "/proj/b.png"
            (with_include demo_args ["*.png"]) demo_fs) = true.
Proof.
  split; [reflexivity|]. split; [reflexivity|].
  apply (include_does_not_bypass_sniff fnmatch_basic lower_basic "/proj/b.png"
           (with_include demo_args ["*.png"]) demo_fs); reflexivity.
Defined.

(** ** Strings and traces *)

Lemma endswith_spec (s p : string) :
  Py.endswith s p = true <-> exists pre, s = (pre ++ p)%string.
Proof.
  split.
  - induction s as [|c r IH]; cbn [Py.endswith].
    + destruct (String.eqb_spec "" p) as [<-|]; [|discriminate].
      intros _. now exists "".
    + destruct (String.eqb_spec (String c r) p) as [<-|].
      * intros _. now exists "".
      * intros H. destruct (IH H) as [pre ->]. now exists (String c pre).
  - intros [pre ->]. induction pre as [|c pre IH]; cbn [String.append].
    + destruct p; cbn [Py.endswith]; now rewrite String.eqb_refl.
    + cbn [Py.endswith]. rewrite IH. now destruct (String.eqb _ p).
Qed.

Lemma string_app_assoc (a b c : string) :
  ((a ++ b) ++ c = a ++ (b ++ c))%string.
Proof. induction a as [|x a IH]; cbn; [reflexivity | now rewrite IH]. Qed.

Lemma string_app_nil_r (a : string) : (a ++ "")%string = a.
Proof. induction a as [|x a IH]; cbn; [reflexivity | now rewrite IH]. Qed.

Lemma written_app (t1 t2 : list event) :
  written (t1 ++ t2) = (written t1 ++ written t2)%string.
Proof.
  induction t1 as [|e t1 IH]; [reflexivity|].
  destruct e; cbn [app written]; rewrite IH; try reflexivity.
  now rewrite string_app_assoc.
Qed.

Lemma is_probably_text_trace (path : string) (n : nat) (fs : filesystem) :
  snd (is_probably_text path n fs) = [EvReadBytes path n].
Proof.
  unfold is_probably_text, bind, call, ret.
  now destruct (option_map (firstn n) (fs_bytes fs path)).
Qed.

(** ** The loop of [main] *)
Section EmissionProperties.

Variable fnmatch : string -> string -> bool.
Variable lower : string -> string.
Variable abspath : string -> string.
Variable relpath : string -> string -> string.
Variable encodable : string -> bool.
Variable printable : string -> bool.

Lemma should_skip_file_trace (path : string) (args : Args) (fs : filesystem) :
  let tr := snd (should_skip_file fnmatch lower path args fs) in
  tr = [] \/ tr = [EvGetsize path]
  \/ tr = [EvGetsize path; EvReadBytes path DEFAULT_SAMPLE_SIZE].
Proof.
  pose proof (is_probably_text_trace path DEFAULT_SAMPLE_SIZE fs) as Hs.
  unfold should_skip_file, bind, ret, call.
  split_tests; cbn [snd app]; auto.
  destruct (is_probably_text path DEFAULT_SAMPLE_SIZE fs) as [t tr].
  cbn [snd] in Hs. subst tr.
  destruct t; cbn [negb snd app]; auto.
Qed.

Lemma should_skip_file_writes_nothing (path : string) (args : Args)
    (fs : filesystem) :
  written (snd (should_skip_file fnmatch lower path args fs)) = ""
  /\ forallb body_event (snd (should_skip_file fnmatch lower path args fs)) = true.
Proof.
  destruct (should_skip_file_trace path args fs) as [H|[H|H]];
    rewrite H; split; reflexivity.
Qed.

(** The events of one block. *)
Lemma write_block_trace (header content : string) (fs : filesystem) :
  snd (write_block header content fs)
  = [EvWrite (header ++ ":" ++ Py.NL); EvWrite content]
    ++ (if Py.endswith content Py.NL then [] else [EvWrite Py.NL])
    ++ [EvWrite Py.NL].
Proof.
  unfold write_block, bind, emit, ret.
  now destruct (Py.endswith content Py.NL).
Qed.

Lemma write_block_written (header content : string) (fs : filesystem) :
  written (snd (write_block header content fs)) = block header content.
Proof.
  rewrite write_block_trace. unfold block.
  destruct (Py.endswith content Py.NL); cbn [app written];
    rewrite ?string_app_nil_r, ?string_app_assoc; reflexivity.
Qed.

(** One turn of the loop. *)
Lemma main_loop_step (args : Args) (root path : string) (rest : list string)
    (count : Z) (fs : filesystem) :
  main_loop fnmatch lower relpath args root (path :: rest) count fs
  = let checked := should_skip_file fnmatch lower path args fs in
    if fst checked then
      (fst (main_loop fnmatch lower relpath args root rest count fs),
       snd checked ++ snd (main_loop fnmatch lower relpath args root rest count fs))
    else
      match fs_text fs path (encoding args) with
      | None =>
        (fst (main_loop fnmatch lower relpath args root rest count fs),
         snd checked ++ EvReadText path (encoding args)
         :: snd (main_loop fnmatch lower relpath args root rest count fs))
      | Some content =>
        (fst (main_loop fnmatch lower relpath args root rest (count + 1) fs),
         snd checked ++ EvReadText path (encoding args)
         :: snd (write_block (header_of relpath args root path) content fs)
            ++ snd (main_loop fnmatch lower relpath args root rest (count + 1) fs))
      end.
Proof.
  cbn [main_loop]. unfold bind at 1.
  destruct (should_skip_file fnmatch lower path args fs) as [[|] t1]; cbn [fst snd].
  - now destruct (main_loop fnmatch lower relpath args root rest count fs).
  - unfold bind at 1, call at 1.
    destruct (fs_text fs path (encoding args)) as [content|].
    + unfold bind at 1. fold (header_of relpath args root path).
      destruct (write_block (header_of relpath args root path) content fs).
      destruct (main_loop fnmatch lower relpath args root rest (count + 1) fs).
      reflexivity.
    + now destruct (main_loop fnmatch lower relpath args root rest count fs).
Qed.

Lemma emitted_cons (args : Args) (root path : string) (rest : list string)
    (fs : filesystem) :
  emitted fnmatch lower relpath args root fs (path :: rest)
  = (if fst (should_skip_file fnmatch lower path args fs) then []
     else match fs_text fs path (encoding args) with
          | None => []
          | Some content => [(header_of relpath args root path, content)]
          end)
    ++ emitted fnmatch lower relpath args root fs rest.
Proof. reflexivity. Qed.

(** The loop counts and writes exactly the candidates that are accepted
    and read without error, in order, and opens or closes nothing. *)
Lemma main_loop_spec (args : Args) (root : string) (fs : filesystem)
    (paths : list string) : forall count : Z,
  let result := main_loop fnmatch lower relpath args root paths count fs in
  let files := emitted fnmatch lower relpath args root fs paths in
  fst result = count + Z.of_nat (List.length files)
  /\ written (snd result) = blocks files
  /\ forallb body_event (snd result) = true.
Proof.
  induction paths as [|path rest IH]; intros count.
  - cbn. repeat split. lia.
  - cbn zeta. rewrite main_loop_step, emitted_cons. cbn zeta.
    destruct (should_skip_file_writes_nothing path args fs) as [Hw Hb].
    destruct (fst (should_skip_file fnmatch lower path args fs)).
    + destruct (IH count) as (Hc & Ht & He). cbn [fst snd app].
      rewrite written_app, forallb_app, Hw, Hb, Ht, He. now rewrite Hc.
    + destruct (fs_text fs path (encoding args)) as [content|].
      * destruct (IH (count + 1)) as (Hc & Ht & He). cbn [fst snd app].
        rewrite written_app, forallb_app, Hw, Hb. cbn [written forallb].
        rewrite written_app, forallb_app, write_block_written, Ht, He.
        rewrite write_block_trace. cbn [List.length blocks].
        repeat split; [lia|].
        now destruct (Py.endswith content Py.NL).
      * destruct (IH count) as (Hc & Ht & He). cbn [fst snd app].
        rewrite written_app, forallb_app, Hw, Hb. cbn [written forallb].
        now rewrite Hc, Ht, He.
Qed.


(** C7.  The text of a block is what reading the file with the configured
    encoding gives, undecodable bytes replaced.  When that reading raises
    for a file that passed the filter, that file alone is skipped: the
    loop logs the attempt, writes nothing for it, leaves the count as it
    is and goes on with the next candidate; the count and the output
    text of the whole run are those of the run without that file. *)
Theorem read_error_skips_only_that_file (args : Args) (root path : string)
    (before after : list string) (count : Z) (fs : filesystem) :
  fst (should_skip_file fnmatch lower path args fs) = false ->
  fs_text fs path (encoding args) = None ->
  let loop := fun paths c => main_loop fnmatch lower relpath args root paths c fs in
  loop (path :: after) count
  = (fst (loop after count),
     snd (should_skip_file fnmatch lower path args fs)
     ++ EvReadText path (encoding args) :: snd (loop after count))
  /\ fst (loop (before ++ path :: after) 0) = fst (loop (before ++ after) 0)
  /\ written (snd (loop (before ++ path :: after) 0))
     = written (snd (loop (before ++ after) 0))
  /\ forall hc, In hc (emitted fnmatch lower relpath args root fs
                         (before ++ path :: after)) ->
       exists q, In q (before ++ after)
                 /\ fs_text fs q (encoding args) = Some (snd hc).
Proof.
  intros Hacc Hread loop. subst loop. cbn beta.
  assert (Hsame : emitted fnmatch lower relpath args root fs (before ++ path :: after)
                  = emitted fnmatch lower relpath args root fs (before ++ after)).
  { unfold emitted. rewrite !flat_map_app. cbn [flat_map].
    now rewrite Hacc, Hread. }
  split; [|split; [|split]].
  - rewrite main_loop_step. cbn zeta. now rewrite Hacc, Hread.
  - destruct (main_loop_spec args root fs (before ++ path :: after) 0)
      as (-> & _).
    destruct (main_loop_spec args root fs (before ++ after) 0) as (-> & _).
    now rewrite Hsame.
  - destruct (main_loop_spec args root fs (before ++ path :: after) 0)
      as (_ & -> & _).
    destruct (main_loop_spec args root fs (before ++ after) 0)
      as (_ & -> & _).
    now rewrite Hsame.
  - rewrite Hsame. unfold emitted. intros hc Hin.
    apply in_flat_map in Hin as (q & Hq & Hin). exists q. split; [exact Hq|].
    destruct (fst (should_skip_file fnmatch lower q args fs)); [destruct Hin|].
    destruct (fs_text fs q (encoding args)) as [c|]; [|destruct Hin].
    destruct Hin as [<-|[]]. reflexivity.
Qed.

Lemma writes_app (t1 t2 : list event) :
  writes (t1 ++ t2) = writes t1 ++ writes t2.
Proof. apply flat_map_app. Qed.

Lemma should_skip_file_no_write (path : string) (args : Args)
    (fs : filesystem) :
  writes (snd (should_skip_file fnmatch lower path args fs)) = [].
Proof.
  destruct (should_skip_file_trace path args fs) as [H|[H|H]];
    rewrite H; reflexivity.
Qed.

(** The texts the loop writes are the parts of the blocks, in order. *)
Lemma main_loop_writes (args : Args) (root : string) (fs : filesystem)
    (paths : list string) : forall count : Z,
  writes (snd (main_loop fnmatch lower relpath args root paths count fs))
  = flat_map (fun hc => block_parts (fst hc) (snd hc))
      (emitted fnmatch lower relpath args root fs paths).
Proof.
  induction paths as [|path rest IH]; intros count; [reflexivity|].
  rewrite main_loop_step, emitted_cons, flat_map_app. cbn zeta.
  pose proof (should_skip_file_no_write path args fs) as Hw.
  destruct (fst (should_skip_file fnmatch lower path args fs)); cbn [snd].
  - now rewrite writes_app, Hw, IH.
  - destruct (fs_text fs path (encoding args)) as [content|]; cbn [snd].
    + rewrite writes_app, Hw. cbn [app].
      change (writes (EvReadText path (encoding args) :: ?t)) with (writes t).
      rewrite writes_app, IH, write_block_trace. cbn [flat_map fst snd].
      rewrite app_nil_r. f_equal. unfold block_parts.
      now destruct (Py.endswith content Py.NL).
    + rewrite writes_app, Hw. cbn [app].
      change (writes (EvReadText path (encoding args) :: ?t)) with (writes t).
      now rewrite IH.
Qed.

(** When every text written can be encoded, nothing is cut. *)
Lemma until_failed_write_ok (tr : list event) :
  forallb encodable (writes tr) = true ->
  until_failed_write encodable tr = (tr, true).
Proof.
  induction tr as [|e r IH]; [reflexivity|].
  destruct e; cbn [until_failed_write]; try (intros H; now rewrite (IH H)).
  cbn [writes flat_map app forallb]. intros H.
  apply andb_prop in H as [-> H]. now rewrite (IH H).
Qed.

Lemma until_failed_write_body (tr : list event) :
  forallb body_event tr = true ->
  forallb body_event (fst (until_failed_write encodable tr)) = true.
Proof.
  induction tr as [|e r IH]; [reflexivity|].
  cbn [forallb]. intros H. apply andb_prop in H as [He Hr].
  specialize (IH Hr).
  destruct e; cbn [until_failed_write]; try discriminate He;
    try (destruct (until_failed_write encodable r); cbn [fst forallb] in *;
         exact IH).
  destruct (encodable s); [|reflexivity].
  destruct (until_failed_write encodable r). exact IH.
Qed.

(** The shape of a run of [main]. *)
Lemma main_trace (args : Args) (fs : filesystem) :
  let root := abspath (folder args) in
  let loop := main_loop fnmatch lower relpath args root
                (walk_files root (follow_symlinks args) (fs_tree fs root))
                0 fs in
  let cut := until_failed_write encodable (snd loop) in
  let summary := ("✔ Listo. Archivos incluidos: "
                  ++ Py.str_of_int (fst loop) ++ Py.NL
                  ++ "→ " ++ output args ++ Py.NL)%string in
  main fnmatch lower abspath relpath encodable printable args fs
  = if fs_isdir fs root
    then if fs_open_out fs (output args)
         then (if snd cut && printable summary then 0 else 1,
               EvIsdir root :: EvOpenOut (output args) "w" :: EvWalk root
               :: fst cut
               ++ [EvCloseOut;
                   if snd cut && printable summary
                   then EvStdout summary
                   else EvTraceback "UnicodeEncodeError"])
         else (1, [EvIsdir root; EvTraceback "OSError"])
    else (1, [EvIsdir root;
              EvStderr ("✖ La ruta no es una carpeta: " ++ root ++ Py.NL)]).
Proof.
  cbn zeta. unfold main, attempt, bind, call, emit, ret.
  destruct (fs_isdir fs (abspath (folder args))); cbn [negb]; [|reflexivity].
  destruct (fs_open_out fs (output args)); cbn [negb]; [|reflexivity].
  destruct (main_loop _ _ _ _ _ _ _ _) as [count tr]. cbn [fst snd].
  destruct (until_failed_write encodable tr) as [t [|]];
    cbn [fst snd app andb]; [|now rewrite ?app_nil_r].
  destruct (printable _); cbn [app]; now rewrite ?app_nil_r.
Qed.


Lemma replay_body (tr : list event) (p : string) :
  forallb body_event tr = true ->
  forall (st : store) (old q : string),
    st p = Some old ->
    replay tr (Some p) st q
    = if String.eqb q p then Some (old ++ written tr)%string else st q.
Proof.
  induction tr as [|e r IH]; intros Hb st old q Hp.
  - cbn. rewrite string_app_nil_r.
    destruct (String.eqb_spec q p) as [->|]; [exact Hp | reflexivity].
  - cbn [forallb] in Hb. apply andb_prop in Hb as [He Hr].
    destruct e; try discriminate He; cbn [replay written]; try now apply IH.
    rewrite Hp.
    rewrite (IH Hr (store_set st p (old ++ s)) (old ++ s)%string q).
    + unfold store_set. rewrite string_app_assoc.
      now destruct (String.eqb q p).
    + unfold store_set. now rewrite String.eqb_refl.
Qed.

Lemma replay_app_body (tr rest : list event) (p : string) :
  forallb body_event tr = true ->
  forall st : store,
    replay (tr ++ rest) (Some p) st = replay rest (Some p) (replay tr (Some p) st).
Proof.
  induction tr as [|e r IH]; intros Hb st; [reflexivity|].
  cbn [forallb] in Hb. apply andb_prop in Hb as [He Hr].
  destruct e; try discriminate He; cbn [app replay]; now apply IH.
Qed.

(** The files after a run: when the output file was opened it holds what
    the run wrote, over whatever it held, and no other file changes; a
    run that does not open it changes nothing. *)
Lemma run_store (args : Args) (fs : filesystem) (st : store) (q : string) :
  let root := abspath (folder args) in
  let loop := main_loop fnmatch lower relpath args root
                (walk_files root (follow_symlinks args) (fs_tree fs root))
                0 fs in
  snd (run fnmatch lower abspath relpath encodable printable args fs st) q
  = if fs_isdir fs root && fs_open_out fs (output args)
       && String.eqb q (output args)
    then Some (written (fst (until_failed_write encodable (snd loop))))
    else st q.
Proof.
  cbn zeta. unfold run. rewrite main_trace. cbn zeta.
  destruct (fs_isdir fs (abspath (folder args))); cbn [andb snd];
    [|reflexivity].
  destruct (fs_open_out fs (output args)); cbn [andb snd]; [|reflexivity].
  destruct (main_loop_spec args (abspath (folder args)) fs
              (walk_files (abspath (folder args)) (follow_symlinks args)
                 (fs_tree fs (abspath (folder args)))) 0)
    as (_ & _ & Hb).
  apply until_failed_write_body in Hb.
  cbn [replay String.eqb Ascii.eqb Bool.eqb].
  rewrite (replay_app_body _ _ _ Hb).
  assert (Hend : forall (e : event) (st' : store),
             body_event e = true ->
             replay [EvCloseOut; e] (Some (output args)) st' = st')
    by (intros e st' He; destruct e; try discriminate He; reflexivity).
  rewrite Hend by (now destruct (snd (until_failed_write encodable _)
                                   && printable _)).
  rewrite (replay_body _ _ Hb _ "" q).
  - unfold store_set. cbn [String.append].
    now destruct (String.eqb q (output args)).
  - unfold store_set. now rewrite String.eqb_refl.
Qed.

(** The filter looks at a candidate only through its name, its size and
    its bytes. *)
Lemma is_probably_text_same_bytes (path : string) (n : nat)
    (fs1 fs2 : filesystem) :
  fs_bytes fs1 path = fs_bytes fs2 path ->
  is_probably_text path n fs1 = is_probably_text path n fs2.
Proof.
  intros Hb. unfold is_probably_text, bind, call, ret. rewrite Hb.
  now destruct (option_map (firstn n) (fs_bytes fs2 path)).
Qed.

Lemma should_skip_file_same_file (path : string) (args : Args)
    (fs1 fs2 : filesystem) :
  fs_getsize fs1 path = fs_getsize fs2 path ->
  fs_bytes fs1 path = fs_bytes fs2 path ->
  should_skip_file fnmatch lower path args fs1
  = should_skip_file fnmatch lower path args fs2.
Proof.
  intros Hs Hb.
  pose proof (is_probably_text_same_bytes path DEFAULT_SAMPLE_SIZE fs1 fs2 Hb)
    as Hsniff.
  unfold should_skip_file, bind, call, ret.
  destruct (negb (show_hidden args)
            && Py.startswith (OsPath.basename path) "."); [reflexivity|].
  cbv beta. rewrite Hs.
  destruct (fs_getsize fs2 path) as [n|]; [|reflexivity].
  destruct (n >? max_bytes args); [reflexivity|].
  destruct (Py.mem _ DEFAULT_EXCLUDED_EXTS && _); [reflexivity|].
  destruct (Py.truthy (exclude args) && _); [reflexivity|].
  destruct (Py.truthy (include args) && _); [reflexivity|].
  rewrite Hsniff.
  now destruct (is_probably_text path DEFAULT_SAMPLE_SIZE fs2) as [[|] tr].
Qed.

(** The loop reads the file system only at its candidates. *)
Lemma main_loop_same_files (args : Args) (root : string)
    (fs1 fs2 : filesystem) (paths : list string) :
  (forall p, In p paths ->
     fs_getsize fs1 p = fs_getsize fs2 p
     /\ fs_bytes fs1 p = fs_bytes fs2 p
     /\ forall enc, fs_text fs1 p enc = fs_text fs2 p enc) ->
  forall count : Z,
    main_loop fnmatch lower relpath args root paths count fs1
    = main_loop fnmatch lower relpath args root paths count fs2.
Proof.
  induction paths as [|path rest IH]; intros Hsame count; [reflexivity|].
  destruct (Hsame path (or_introl eq_refl)) as (Hs & Hb & Ht).
  assert (Hrest : forall c,
             main_loop fnmatch lower relpath args root rest c fs1
             = main_loop fnmatch lower relpath args root rest c fs2)
    by (apply IH; intros p Hp; apply Hsame; now right).
  rewrite !main_loop_step. cbn zeta.
  rewrite (should_skip_file_same_file path args fs1 fs2 Hs Hb), Ht, !Hrest.
  destruct (fst (should_skip_file fnmatch lower path args fs2));
    [reflexivity|].
  destruct (fs_text fs2 path (encoding args)); [|reflexivity].
  now rewrite !write_block_trace.
Qed.

(** A run reads nothing outside the directory it is given: on two file
    systems that agree on that directory and on whether the output can
    be opened, it has the same status and the same events. *)
Lemma main_same_directory (args : Args) (fs1 fs2 : filesystem) :
  same_directory (abspath (folder args)) (follow_symlinks args) fs1 fs2 ->
  fs_open_out fs1 (output args) = fs_open_out fs2 (output args) ->
  main fnmatch lower abspath relpath encodable printable args fs1
  = main fnmatch lower abspath relpath encodable printable args fs2.
Proof.
  intros (Hdir & Htree & Hfiles) Hopen.
  rewrite !main_trace. cbn zeta.
  rewrite <- Hdir, <- Hopen, <- Htree.
  now rewrite (main_loop_same_files args (abspath (folder args)) fs1 fs2 _
                 Hfiles 0).
Qed.

(** C9.  Two consecutive runs with the same options, the directory being
    for the second run what it was for the first (same tree, same size,
    bytes and text of every file walked) and the output path as openable
    as before: the second run has the status and the events of the
    first, and leaves every file, the output file among them, with the
    bytes the first run left.  It starts from the files the first run
    left, the previous output included, and may find anything outside
    the directory changed. *)
Theorem rerun_is_idempotent (args : Args) (fs1 fs2 : filesystem)
    (st : store) :
  same_directory (abspath (folder args)) (follow_symlinks args) fs1 fs2 ->
  fs_open_out fs1 (output args) = fs_open_out fs2 (output args) ->
  let first := run fnmatch lower abspath relpath encodable printable args fs1 st in
  let second :=
    run fnmatch lower abspath relpath encodable printable args fs2 (snd first) in
  fst second = fst first
  /\ (forall q, snd second q = snd first q)
  /\ snd second (output args) = snd first (output args).
Proof.
  intros Hsame Hopen. cbn zeta.
  pose proof (main_same_directory args fs1 fs2 Hsame Hopen) as Hmain.
  assert (Hrun : forall st',
             run fnmatch lower abspath relpath encodable printable args fs2 st'
             = run fnmatch lower abspath relpath encodable printable args fs1 st')
    by (intros st'; unfold run; now rewrite Hmain).
  rewrite Hrun.
  assert (Hq : forall q,
             snd (run fnmatch lower abspath relpath encodable printable args fs1
                    (snd (run fnmatch lower abspath relpath encodable printable args
                            fs1 st))) q
             = snd (run fnmatch lower abspath relpath encodable printable args fs1 st)
                   q).
  { intros q. rewrite (run_store args fs1 _ q), (run_store args fs1 st q).
    cbn zeta.
    now destruct (fs_isdir fs1 (abspath (folder args))
                  && fs_open_out fs1 (output args)
                  && String.eqb q (output args)). }
  split; [|split; [exact Hq | apply Hq]].
  unfold run. now destruct (main fnmatch lower abspath relpath encodable printable
                              args fs1).
Qed.

End EmissionProperties.

(** ** Traversal *)

Lemma remove_after_prefix (x : string) (pre l : list string) :
  (forall y, In y pre -> y <> x) ->
  Py.remove x (pre ++ x :: l) = pre ++ l.
Proof.
  induction pre as [|y pre IH]; intros Hpre; cbn [app Py.remove].
  - now rewrite String.eqb_refl.
  - destruct (String.eqb_spec y x) as [->|_].
    + now elim (Hpre x (or_introl eq_refl)).
    + rewrite IH; [reflexivity|]. intros z Hz. apply Hpre. now right.
Qed.

Lemma mem_middle (x : string) (pre l : list string) :
  Py.mem x (pre ++ x :: l) = true.
Proof.
  unfold Py.mem. rewrite existsb_app. cbn [existsb].
  now rewrite String.eqb_refl, orb_true_r.
Qed.

Lemma prune_loop (l : list string) : forall pre : list string,
  (forall y, In y pre -> pruned_dir y = false) ->
  fold_left (fun ds d => Py.remove d ds) (filter pruned_dir l) (pre ++ l)
  = pre ++ filter (fun d => negb (pruned_dir d)) l
  /\ remove_each (filter pruned_dir l) (pre ++ l)
     = Some (pre ++ filter (fun d => negb (pruned_dir d)) l).
Proof.
  induction l as [|x l IH]; intros pre Hpre; cbn [filter].
  - now rewrite !app_nil_r.
  - destruct (pruned_dir x) eqn:Hx; cbn [negb fold_left remove_each].
    + rewrite mem_middle, remove_after_prefix; [now apply IH|].
      intros y Hy ->. rewrite (Hpre _ Hy) in Hx. discriminate.
    + replace (pre ++ x :: l) with ((pre ++ [x]) ++ l)
        by now rewrite <- app_assoc.
      replace (pre ++ x :: filter (fun d => negb (pruned_dir d)) l)
        with ((pre ++ [x]) ++ filter (fun d => negb (pruned_dir d)) l)
        by now rewrite <- app_assoc.
      apply IH. intros y Hy. apply in_app_or in Hy as [Hy|[<-|[]]]; auto.
Qed.

(** The two loops over [dirnames] keep the names that are neither in the
    excluded set nor hidden, in order. *)
Lemma prune_dirnames_filter (dirnames : list string) :
  prune_dirnames dirnames = filter (fun d => negb (pruned_dir d)) dirnames.
Proof.
  unfold prune_dirnames.
  now destruct (prune_loop dirnames [] (fun y (H : In y []) => match H with end)).
Qed.

(** No [dirnames.remove(d)] of [walk_files] raises. *)
Lemma prune_dirnames_never_raises (dirnames : list string) :
  remove_each (filter pruned_dir dirnames) dirnames
  = Some (prune_dirnames dirnames).
Proof.
  rewrite prune_dirnames_filter.
  now destruct (prune_loop dirnames [] (fun y (H : In y []) => match H with end)).
Qed.

Lemma walk_files_Dir (root : string) (follow : bool) (n : string) (l : bool)
    (children : list entry) :
  walk_files root follow (Dir n l children)
  = map (fun fname => OsPath.join root fname) (file_names children)
    ++ flat_map (fun d => descend follow root d children)
         (prune_dirnames (dir_names children)).
Proof.
  cbn [walk_files]. f_equal. apply flat_map_ext. intros d.
  induction children as [|c r IH]; [reflexivity|].
  cbn [descend]. destruct c as [f|n' l' sub]; [exact IH|].
  now rewrite IH.
Qed.

Lemma flat_map_ext_in' {A B : Type} (f g : A -> list B) (l : list A) :
  (forall a, In a l -> f a = g a) -> flat_map f l = flat_map g l.
Proof.
  induction l as [|a l IH]; intros H; [reflexivity|].
  cbn [flat_map]. rewrite (H a (or_introl eq_refl)), IH; [reflexivity|].
  intros b Hb. apply H. now right.
Qed.

Lemma file_names_In (f : string) (children : list entry) :
  In f (file_names children) <-> In (File f) children.
Proof.
  unfold file_names. rewrite in_flat_map. split.
  - intros ([n|n l sub] & Hin & Hf); [|destruct Hf].
    destruct Hf as [<-|[]]. exact Hin.
  - intros Hin. exists (File f). split; [exact Hin | now left].
Qed.

Lemma descend_In (follow : bool) (top d p : string) (children : list entry) :
  In p (descend follow top d children) ->
  exists l sub,
    In (Dir d l sub) children
    /\ follow || negb l = true
    /\ In p (walk_files (OsPath.join top d) follow (Dir d l sub)).
Proof.
  induction children as [|c r IH]; cbn [descend]; [intros []|].
  destruct c as [n|n l sub].
  - intros H. destruct (IH H) as (l & sub & Hin & Hf & Hp).
    exists l, sub. repeat split; auto. now right.
  - destruct (String.eqb_spec n d) as [->|_].
    + destruct (follow || negb l) eqn:Hf; [|intros []].
      intros Hp. exists l, sub. repeat split; auto. now left.
    + intros H. destruct (IH H) as (l' & sub' & Hin & Hf & Hp).
      exists l', sub'. repeat split; auto. now right.
Qed.

(** Emptying the pruned directories below the root changes nothing that
    [walk_files] yields. *)
Lemma walk_files_strip (follow : bool) (tree : entry) : forall root : string,
  walk_files root follow tree = walk_files root follow (strip_below tree).
Proof.
  induction tree as [n|n l children IH] using entry_ind'; intros root;
    [reflexivity|].
  cbn [strip_below]. rewrite !walk_files_Dir.
  set (strip_child := fun c : entry =>
         match c with
         | File _ => c
         | Dir d l0 _ => if pruned_dir d then Dir d l0 [] else strip_below c
         end).
  assert (Hfiles : file_names (map strip_child children) = file_names children).
  { clear IH. unfold file_names.
    induction children as [|c r IHr]; [reflexivity|].
    cbn [map flat_map]. rewrite IHr.
    destruct c as [f|d l0 sub]; [reflexivity|].
    cbn. now destruct (pruned_dir d). }
  assert (Hdirs : dir_names (map strip_child children) = dir_names children).
  { clear IH Hfiles. unfold dir_names.
    induction children as [|c r IHr]; [reflexivity|].
    cbn [map flat_map]. rewrite IHr.
    destruct c as [f|d l0 sub]; [reflexivity|].
    cbn. now destruct (pruned_dir d). }
  rewrite Hfiles, Hdirs. f_equal.
  apply flat_map_ext_in'. intros d Hd.
  rewrite prune_dirnames_filter in Hd. apply filter_In in Hd as [_ Hd].
  apply negb_true_iff in Hd. clear Hfiles Hdirs.
  induction IH as [|c r Hc _ IHr]; [reflexivity|].
  cbn [map descend]. destruct c as [f|d' l0 sub].
  - cbn [strip_child]. exact IHr.
  - destruct (String.eqb_spec d' d) as [->|Hne].
    + cbn [strip_child]. rewrite Hd. cbn [strip_below].
      rewrite String.eqb_refl.
      destruct (follow || negb l0); [|reflexivity].
      apply (Hc (OsPath.join root d)).
    + cbn [strip_child].
      destruct (pruned_dir d'); cbn [strip_below];
        (destruct (String.eqb_spec d' d) as [->|_]; [now elim Hne|]);
        exact IHr.
Qed.

(** Every path [walk_files] yields is reached from the root through
    directories that are neither pruned nor unfollowed links. *)
Lemma walk_files_reaches (follow : bool) (tree : entry) :
  forall (root p : string),
    In p (walk_files root follow tree) -> reaches follow root tree p.
Proof.
  induction tree as [n|n l children IH] using entry_ind'; intros root p;
    [intros []|].
  rewrite walk_files_Dir. intros Hin. apply in_app_or in Hin as [Hin|Hin].
  - apply in_map_iff in Hin as (f & <- & Hf).
    apply reaches_file. now apply file_names_In.
  - apply in_flat_map in Hin as (d & Hd & Hp).
    rewrite prune_dirnames_filter in Hd. apply filter_In in Hd as [_ Hd].
    apply negb_true_iff in Hd.
    apply descend_In in Hp as (l' & sub & Hc & Hf & Hp).
    apply (reaches_dir follow root n l children d l' sub p Hc Hd Hf).
    rewrite Forall_forall in IH. now apply (IH _ Hc).
Qed.

(** C3 (as amended).  For every directory strictly below the root whose
    name is in the default-excluded set or starts with ['.'], traversal
    never descends into it: emptying every such directory, at any depth,
    leaves what [walk_files] yields unchanged, and every path yielded is
    reached from the root through directories none of which has such a
    name.  The root itself is traversed whatever its name. *)
Theorem pruned_subdirectories_never_descended (root : string)
    (follow : bool) (tree : entry) :
  walk_files root follow tree = walk_files root follow (strip_below tree)
  /\ (forall p, In p (walk_files root follow tree) ->
                reaches follow root tree p)
  /\ (forall name l children d l' sub,
         tree = Dir name l children ->
         In (Dir d l' sub) children ->
         pruned_dir d = true ->
         ~ In d (prune_dirnames (dir_names children))).
Proof.
  split; [apply walk_files_strip|]. split; [apply walk_files_reaches|].
  intros name l children d l' sub _ _ Hd Hin.
  rewrite prune_dirnames_filter in Hin. apply filter_In in Hin as [_ Hin].
  rewrite Hd in Hin. discriminate.
Qed.

Lemma pruned_subdirectories_never_descended_witness :
  In "/proj/docs/x.md" (walk_files "/proj" false demo_tree)
  /\ reaches false "/proj" demo_tree "/proj/docs/x.md"
  /\ walk_files "/proj" false demo_tree
     = ["/proj/a.py"; "/proj/b.png"; "/proj/.secret"; "/proj/big.txt";
        "/proj/exact.txt"; "/proj/docs/x.md"; "/proj/docs/y.txt"].
Proof.
  assert (H : In "/proj/docs/x.md" (walk_files "/proj" false demo_tree))
    by (vm_compute; tauto).
  split; [exact H|]. split; [|reflexivity].
  exact (proj1 (proj2 (pruned_subdirectories_never_descended
                         "/proj" false demo_tree)) _ H).
Defined.

(** The claim as stated fails at the root: a root directory named in the
    default-excluded set is traversed and its files are yielded. *)
Lemma excluded_root_is_traversed :
  ~ (forall (root : string) (follow : bool) (tree : entry) (p : string),
        pruned_dir (OsPath.basename root) = true ->
        ~ In p (walk_files root follow tree)).
Proof.
  intros H.
  apply (H "/proj/build" false (Dir "build" false [File "out.txt"])
           "/proj/build/out.txt").
  - reflexivity.
  - now left.
Qed.

(** ** The model on the example directory *)


Lemma read_error_skips_only_that_file_witness :
  fst (should_skip_file fnmatch_basic lower_basic "/proj/docs/y.txt" demo_args demo_fs)
  = false
  /\ fs_text demo_fs "/proj/docs/y.txt" (encoding demo_args) = None
  /\ written (snd (main_loop fnmatch_basic lower_basic relpath_below demo_args "/proj"
                     (["/proj/a.py"] ++ "/proj/docs/y.txt"
                                     :: ["/proj/docs/x.md"]) 0 demo_fs))
     = written (snd (main_loop fnmatch_basic lower_basic relpath_below demo_args "/proj"
                       (["/proj/a.py"] ++ ["/proj/docs/x.md"]) 0 demo_fs)).
Proof.
  split; [reflexivity|]. split; [reflexivity|].
  exact (proj1 (proj2 (proj2
           (read_error_skips_only_that_file fnmatch_basic lower_basic relpath_below
              demo_args "/proj" "/proj/docs/y.txt" ["/proj/a.py"]
              ["/proj/docs/x.md"] 0 demo_fs eq_refl eq_refl)))).
Defined.

(** Scenario A: the text file gets a block, the PNG file none. *)
Example scenario_text_and_png :
  written (snd (main_loop fnmatch_basic lower_basic relpath_below demo_args "/proj"
                  ["/proj/a.py"; "/proj/b.png"] 0 demo_fs))
  = ("a.py:" ++ Py.NL ++ "x = 1 + 2" ++ Py.NL ++ Py.NL)%string.
Proof. reflexivity. Qed.

(** Scenario B: a hidden file is left out unless hidden files are shown. *)
Example scenario_hidden_file :
  fst (should_skip_file fnmatch_basic lower_basic "/proj/.secret" demo_args demo_fs) = true
  /\ fst (should_skip_file fnmatch_basic lower_basic "/proj/.secret"
            {| folder := "/proj"; output := "contenido_carpeta.txt";
               include := []; exclude := []; max_bytes := 1000000;
               use_path := false; show_hidden := true;
               follow_symlinks := false; encoding := "utf-8" |}
            demo_fs) = false.
Proof. split; reflexivity. Qed.

(** Scenario C: with [--include '*.md'] only the Markdown file is kept. *)
Example scenario_include_md :
  fst (should_skip_file fnmatch_basic lower_basic "/proj/docs/x.md"
         (with_include demo_args ["*.md"]) demo_fs) = false
  /\ fst (should_skip_file fnmatch_basic lower_basic "/proj/docs/y.txt"
            (with_include demo_args ["*.md"]) demo_fs) = true.
Proof. split; reflexivity. Qed.

(** Scenario D: [max_bytes] bytes pass, [max_bytes + 1] bytes do not. *)
Example scenario_size_boundary :
  fst (should_skip_file fnmatch_basic lower_basic "/proj/exact.txt" demo_args demo_fs)
  = false
  /\ fst (should_skip_file fnmatch_basic lower_basic "/proj/big.txt" demo_args demo_fs)
     = true.
Proof. split; reflexivity. Qed.

(** A whole run on the example directory. *)
Example demo_run :
  let '(status, tr, st) :=
    run fnmatch_basic lower_basic abspath_id relpath_below encodable_all printable_all demo_args demo_fs
        (fun _ => None) in
  status = 0
  /\ st "contenido_carpeta.txt"
     = Some ("a.py:" ++ Py.NL ++ "x = 1 + 2" ++ Py.NL ++ Py.NL
             ++ "exact.txt:" ++ Py.NL ++ "x = 1 + 2" ++ Py.NL ++ Py.NL
             ++ "x.md:" ++ Py.NL ++ "# title" ++ Py.NL ++ Py.NL)%string.
Proof. vm_compute. split; reflexivity. Qed.



Lemma rerun_is_idempotent_witness :
  same_directory (abspath_id (folder demo_args)) (follow_symlinks demo_args)
    demo_fs rerun_fs
  /\ fs_open_out demo_fs (output demo_args)
     = fs_open_out rerun_fs (output demo_args)
  /\ snd (run fnmatch_basic lower_basic abspath_id relpath_below
            encodable_all printable_all demo_args rerun_fs
            (snd (run fnmatch_basic lower_basic abspath_id relpath_below
                    encodable_all printable_all demo_args demo_fs
                    (fun _ => Some "old"))))
         "contenido_carpeta.txt"
     = snd (run fnmatch_basic lower_basic abspath_id relpath_below
              encodable_all printable_all demo_args demo_fs
              (fun _ => Some "old"))
           "contenido_carpeta.txt".
Proof.
  assert (Hsame : same_directory (abspath_id (folder demo_args))
                    (follow_symlinks demo_args) demo_fs rerun_fs).
  { split; [reflexivity|]. split; [reflexivity|].
    intros p Hin. vm_compute in Hin.
    repeat (destruct Hin as [<-|Hin];
            [split; [reflexivity|]; split; [reflexivity|];
             intros enc; reflexivity|]).
    destruct Hin. }
  split; [exact Hsame|]. split; [reflexivity|].
  exact (proj2 (proj2 (rerun_is_idempotent fnmatch_basic lower_basic
                         abspath_id relpath_below encodable_all
                         printable_all demo_args demo_fs rerun_fs
                         (fun _ => Some "old") Hsame eq_refl))).
Defined.

(** A second run finds the output of the first outside the directory,
    and writes over what the output file held. *)
Example demo_rerun :
  fs_getsize rerun_fs "/work/contenido_carpeta.txt"
  <> fs_getsize demo_fs "/work/contenido_carpeta.txt"
  /\ snd (run fnmatch_basic lower_basic abspath_id relpath_below
            encodable_all printable_all demo_args rerun_fs
            (fun _ => Some "old"))
         "contenido_carpeta.txt"
     = Some ("a.py:" ++ Py.NL ++ "x = 1 + 2" ++ Py.NL ++ Py.NL
             ++ "exact.txt:" ++ Py.NL ++ "x = 1 + 2" ++ Py.NL ++ Py.NL
             ++ "x.md:" ++ Py.NL ++ "# title" ++ Py.NL ++ Py.NL)%string.
Proof. split; [discriminate | vm_compute; reflexivity]. Qed.

(** A text that cannot be encoded ends the run at its write: the file
    is closed with what was written before, and the status is 1. *)
Example demo_unencodable_text :
  main fnmatch_basic lower_basic abspath_id relpath_below
       (fun s => negb (String.eqb s "x = 1 + 2")) printable_all
       demo_args demo_fs
  = (1, [EvIsdir "/proj"; EvOpenOut "contenido_carpeta.txt" "w";
         EvWalk "/proj";
         EvGetsize "/proj/a.py"; EvReadBytes "/proj/a.py" 4096;
         EvReadText "/proj/a.py" "utf-8";
         EvWrite ("a.py:" ++ Py.NL);
         EvCloseOut; EvTraceback "UnicodeEncodeError"]).
Proof. vm_compute. reflexivity. Qed.

(** * Further properties of the code *)

(** ** The pruning loops of [walk_files] *)

(** X1.  The two loops of [walk_files] over [dirnames] leave exactly the
    names that are neither in the default-excluded set nor hidden, in
    their original order, also when a name occurs several times; and no
    [dirnames.remove(d)] raises. *)
Theorem prune_loops_keep_unpruned_names (dirnames : list string) :
  prune_dirnames dirnames = filter (fun d => negb (pruned_dir d)) dirnames
  /\ remove_each (filter pruned_dir dirnames) dirnames
     = Some (filter (fun d => negb (pruned_dir d)) dirnames)
  /\ (forall d, In d (prune_dirnames dirnames)
                <-> In d dirnames /\ pruned_dir d = false).
Proof.
  split; [apply prune_dirnames_filter|]. split.
  - rewrite prune_dirnames_never_raises. now rewrite prune_dirnames_filter.
  - intros d. rewrite prune_dirnames_filter, filter_In.
    now rewrite negb_true_iff.
Qed.

(** ** Further properties of the filter *)
Section FilterExtras.

Variable fnmatch : string -> string -> bool.
Variable lower : string -> string.

(** X2.  An exclude pattern wins over everything that could admit the
    file: a candidate whose base name matches an exclude pattern is
    skipped whatever the include patterns are, and its content is never
    read for the text test. *)
Theorem exclude_overrides_include (path : string) (args : Args)
    (fs : filesystem) :
  match_any fnmatch (exclude args) (OsPath.basename path) = true ->
  fst (should_skip_file fnmatch lower path args fs) = true
  /\ sample_sizes (snd (should_skip_file fnmatch lower path args fs)) = [].
Proof.
  intros Hex.
  assert (Hrule : fst (rule_exclude fnmatch path args fs) = true)
    by exact Hex.
  rewrite should_skip_file_first_match. unfold filter_rules.
  rewrite (first_match_cons rule_hidden).
  destruct (fst (rule_hidden path args fs)); [split; reflexivity|].
  rewrite (first_match_cons rule_size).
  destruct (fst (rule_size path args fs)); [split; reflexivity|].
  rewrite (first_match_cons (rule_extension lower)).
  destruct (fst (rule_extension lower path args fs)); [split; reflexivity|].
  rewrite (first_match_cons (rule_exclude fnmatch)), Hrule.
  split; reflexivity.
Qed.

End FilterExtras.

Lemma exclude_overrides_include_witness :
  match_any fnmatch_basic
    (exclude (with_exclude (with_include demo_args ["*.md"]) ["x.*"]))
    (OsPath.basename "/proj/docs/x.md") = true
  /\ fst (should_skip_file fnmatch_basic lower_basic "/proj/docs/x.md"
            (with_exclude (with_include demo_args ["*.md"]) ["x.*"])
            demo_fs) = true.
Proof.
  split; [reflexivity|].
  apply (exclude_overrides_include fnmatch_basic lower_basic "/proj/docs/x.md"
           (with_exclude (with_include demo_args ["*.md"]) ["x.*"]) demo_fs).
  reflexivity.
Defined.

(** ** Further properties of [is_probably_text] *)

Lemma text_byte_not_null (s : list byte) :
  forallb is_text_byte s = true -> existsb (Byte.eqb x00) s = false.
Proof.
  induction s as [|b s IH]; [reflexivity|].
  cbn [forallb existsb]. intros H. apply andb_prop in H as [Hb Hs].
  rewrite (IH Hs), orb_false_r.
  destruct b; try reflexivity. discriminate Hb.
Qed.

Lemma text_count_all (s : list byte) :
  forallb is_text_byte s = true -> text_count s = List.length s.
Proof.
  unfold text_count. induction s as [|b s IH]; [reflexivity|].
  cbn [forallb filter]. intros H. apply andb_prop in H as [-> Hs].
  cbn [List.length]. now rewrite IH.
Qed.

Lemma high_byte_not_text (b : byte) :
  (128 <=? Byte.to_N b)%N = true -> is_text_byte b = false.
Proof. destruct b; intros H; try reflexivity; discriminate H. Qed.

Lemma text_count_none (s : list byte) :
  forallb (fun b => (128 <=? Byte.to_N b)%N) s = true ->
  text_count s = 0%nat /\ existsb (Byte.eqb x00) s = false.
Proof.
  unfold text_count. induction s as [|b s IH]; [now split|].
  cbn [forallb filter existsb]. intros H. apply andb_prop in H as [Hb Hs].
  rewrite (high_byte_not_text b Hb). destruct (IH Hs) as [-> ->].
  split; [reflexivity|]. rewrite orb_false_r.
  destruct b; try reflexivity; discriminate Hb.
Qed.

Lemma is_probably_text_on_sample (fs : filesystem) (path : string)
    (bytes : list byte) :
  fs_bytes fs path = Some bytes ->
  fst (is_probably_text path DEFAULT_SAMPLE_SIZE fs)
  = probably_text_spec (Some (firstn 4096 bytes)).
Proof.
  intros Hbytes.
  unfold is_probably_text, bind, call, ret, DEFAULT_SAMPLE_SIZE.
  rewrite Hbytes. cbv beta iota zeta delta [option_map fst].
  apply classify_chunk_spec, firstn_le_length.
Qed.

(** X3.  A file whose first 4096 bytes are all printable ASCII or one of
    newline, carriage return, tab, form feed, backspace is classified as
    text, whatever follows those bytes: a null byte or binary data past
    the sample is not seen. *)
Theorem text_prefix_is_text (fs : filesystem) (path : string)
    (bytes : list byte) :
  fs_bytes fs path = Some bytes ->
  forallb is_text_byte (firstn 4096 bytes) = true ->
  fst (is_probably_text path DEFAULT_SAMPLE_SIZE fs) = true.
Proof.
  intros Hbytes Htext.
  rewrite (is_probably_text_on_sample fs path bytes Hbytes).
  unfold probably_text_spec.
  rewrite (text_byte_not_null _ Htext), (text_count_all _ Htext).
  set (s := firstn 4096 bytes).
  destruct (Nat.eqb_spec (List.length s) 0) as [|Hne]; [reflexivity|].
  rewrite fraction_exceeds_085_exact by lia.
  apply Z.ltb_lt. lia.
Qed.

Lemma text_prefix_is_text_witness :
  fs_bytes demo_fs "/proj/a.py" = Some (list_byte_of_string "x = 1 + 2")
  /\ forallb is_text_byte (firstn 4096 (list_byte_of_string "x = 1 + 2"))
     = true
  /\ fst (is_probably_text "/proj/a.py" DEFAULT_SAMPLE_SIZE demo_fs) = true.
Proof.
  split; [reflexivity|]. split; [reflexivity|].
  apply (text_prefix_is_text demo_fs "/proj/a.py"
           (list_byte_of_string "x = 1 + 2")); reflexivity.
Defined.

(** X4.  Every byte from 128 up counts as not printable, so a non-empty
    sample made only of such bytes is classified as binary: text whose
    UTF-8 encoding has no ASCII byte in its first 4096 bytes is skipped. *)
Theorem non_ascii_sample_is_binary (fs : filesystem) (path : string)
    (bytes : list byte) :
  fs_bytes fs path = Some bytes ->
  bytes <> [] ->
  forallb (fun b => (128 <=? Byte.to_N b)%N) (firstn 4096 bytes) = true ->
  fst (is_probably_text path DEFAULT_SAMPLE_SIZE fs) = false.
Proof.
  intros Hbytes Hne Hhigh.
  rewrite (is_probably_text_on_sample fs path bytes Hbytes).
  unfold probably_text_spec.
  destruct (text_count_none _ Hhigh) as [Hcount Hnull].
  rewrite Hnull, Hcount.
  destruct bytes as [|b r]; [now elim Hne|].
  set (s := firstn 4096 (b :: r)).
  assert (Hlen : (1 <= List.length s)%nat) by (subst s; cbn; lia).
  destruct (Nat.eqb_spec (List.length s) 0) as [|_]; [lia|].
  rewrite fraction_exceeds_085_exact by exact Hlen.
  apply Z.ltb_ge. lia.
Qed.

Lemma non_ascii_sample_is_binary_witness :
  fs_bytes cyrillic_fs "/docs/hola.txt" = Some cyrillic_bytes
  /\ cyrillic_bytes <> []
  /\ forallb (fun b => (128 <=? Byte.to_N b)%N) (firstn 4096 cyrillic_bytes)
     = true
  /\ fst (is_probably_text "/docs/hola.txt" DEFAULT_SAMPLE_SIZE cyrillic_fs)
     = false.
Proof.
  split; [reflexivity|]. split; [discriminate|]. split; [reflexivity|].
  apply (non_ascii_sample_is_binary cyrillic_fs "/docs/hola.txt"
           cyrillic_bytes); [reflexivity | discriminate | reflexivity].
Defined.

(** ** Further properties of the loop of [main] *)
Section EmissionExtras.

Variable fnmatch : string -> string -> bool.
Variable lower : string -> string.
Variable abspath : string -> string.
Variable relpath : string -> string -> string.
Variable encodable : string -> bool.
Variable printable : string -> bool.










Lemma main_loop_strip_fs (args : Args) (root : string) (fs : filesystem)
    (paths : list string) : forall count : Z,
  main_loop fnmatch lower relpath args root paths count (strip_fs fs)
  = main_loop fnmatch lower relpath args root paths count fs.
Proof.
  induction paths as [|path rest IH]; intros count; [reflexivity|].
  rewrite !main_loop_step. cbn zeta.
  rewrite (should_skip_file_same_file fnmatch lower path args (strip_fs fs)
             fs eq_refl eq_refl).
  change (fs_text (strip_fs fs) path (encoding args))
    with (fs_text fs path (encoding args)).
  rewrite !IH.
  destruct (fst (should_skip_file fnmatch lower path args fs)); [reflexivity|].
  destruct (fs_text fs path (encoding args)); [|reflexivity].
  now rewrite !write_block_trace.
Qed.

(** X7.  Pruning does not look at the options: for every option set,
    [--show-hidden] included, a run is the same, event for event, as the
    run on the file system whose excluded and hidden directories are
    empty.  Showing hidden files never brings in a file that lies inside
    a hidden directory. *)
Theorem show_hidden_keeps_directories_pruned (args : Args)
    (fs : filesystem) :
  main fnmatch lower abspath relpath encodable printable args (strip_fs fs)
  = main fnmatch lower abspath relpath encodable printable args fs.
Proof.
  rewrite !main_trace. cbn zeta.
  change (fs_isdir (strip_fs fs)) with (fs_isdir fs).
  change (fs_tree (strip_fs fs) (abspath (folder args)))
    with (strip_below (fs_tree fs (abspath (folder args)))).
  rewrite <- walk_files_strip, main_loop_strip_fs. reflexivity.
Qed.

Lemma oversized_candidates_emit_nothing (args : Args) (root : string)
    (fs : filesystem) (paths : list string) :
  (forall p n, fs_getsize fs p = Some n -> max_bytes args < n) ->
  emitted fnmatch lower relpath args root fs paths = [].
Proof.
  intros Hbig. unfold emitted.
  induction paths as [|p rest IH]; [reflexivity|].
  cbn [flat_map]. rewrite IH, app_nil_r.
  destruct (fst (should_skip_file fnmatch lower p args fs)) eqn:Hskip;
    [reflexivity|].
  apply should_skip_file_rule_order_aux in Hskip.
  destruct Hskip as (_ & Hsize & _).
  unfold rule_size, bind, call, ret in Hsize. cbn [fst] in Hsize.
  destruct (fs_getsize fs p) as [n|] eqn:Hn; [|discriminate].
  apply Z.ltb_ge in Hsize. specialize (Hbig p n Hn). lia.
Qed.

Lemma last_two_after (l : list event) (a b d : event) :
  last (l ++ [a; b]) d = b.
Proof.
  induction l as [|x l IH]; [reflexivity|].
  cbn [app]. now destruct (l ++ [a; b]) eqn:E; [destruct l|].
Qed.

(** X8.  With a negative [--max-bytes] (file sizes being non-negative)
    every candidate is skipped by the size rule: on a directory, when
    the output file can be opened and standard output can encode the
    summary, the run ends with status zero, leaves the output file
    created and empty, and reports zero files. *)
Theorem negative_max_bytes_admits_nothing (args : Args) (fs : filesystem)
    (st : store) :
  max_bytes args < 0 ->
  (forall p n, fs_getsize fs p = Some n -> 0 <= n) ->
  fs_isdir fs (abspath (folder args)) = true ->
  fs_open_out fs (output args) = true ->
  printable ("✔ Listo. Archivos incluidos: 0" ++ Py.NL ++ "→ "
             ++ output args ++ Py.NL) = true ->
  let '(status, tr, st') :=
    run fnmatch lower abspath relpath encodable printable args fs st in
  status = 0
  /\ st' (output args) = Some ""
  /\ written tr = ""
  /\ last tr EvCloseOut
     = EvStdout ("✔ Listo. Archivos incluidos: 0" ++ Py.NL ++ "→ "
                 ++ output args ++ Py.NL).
Proof.
  intros Hneg Hsizes Hdir Hopen Hprint.
  assert (Hnone : forall paths,
             emitted fnmatch lower relpath args (abspath (folder args)) fs
               paths = []).
  { intros paths. apply oversized_candidates_emit_nothing.
    intros p n Hn. specialize (Hsizes p n Hn). lia. }
  set (paths := walk_files (abspath (folder args)) (follow_symlinks args)
                  (fs_tree fs (abspath (folder args)))).
  destruct (main_loop_spec fnmatch lower relpath args
              (abspath (folder args)) fs paths 0) as (Hc & Hw & _).
  pose proof (main_loop_writes fnmatch lower relpath args
                (abspath (folder args)) fs paths 0) as Hwr.
  rewrite Hnone in Hc, Hw, Hwr. cbn [List.length blocks flat_map] in Hc, Hw, Hwr.
  assert (Hcut : until_failed_write encodable
                   (snd (main_loop fnmatch lower relpath args
                           (abspath (folder args)) paths 0 fs))
                 = (snd (main_loop fnmatch lower relpath args
                           (abspath (folder args)) paths 0 fs), true))
    by (apply until_failed_write_ok; now rewrite Hwr).
  pose proof (run_store fnmatch lower abspath relpath encodable printable args fs st
                (output args)) as Hstore.
  cbn zeta in Hstore. fold paths in Hstore.
  rewrite Hdir, Hopen, String.eqb_refl, Hcut in Hstore.
  cbn [andb fst] in Hstore. rewrite Hw in Hstore.
  unfold run in Hstore |- *. rewrite main_trace in Hstore |- *.
  cbn zeta in Hstore |- *. fold paths in Hstore |- *.
  rewrite Hdir, Hopen, Hcut, Hc in Hstore |- *.
  cbn [fst snd andb Z.of_nat Z.add] in Hstore |- *.
  assert (Hprint' : printable ("✔ Listo. Archivos incluidos: "
                               ++ Py.str_of_int 0 ++ Py.NL ++ "→ "
                               ++ output args ++ Py.NL) = true)
    by exact Hprint.
  rewrite Hprint' in Hstore |- *.
  split; [reflexivity|]. split; [exact Hstore|]. split.
  - cbn [written]. rewrite written_app, Hw. reflexivity.
  - apply (last_two_after
             (EvIsdir (abspath (folder args))
              :: EvOpenOut (output args) "w"
              :: EvWalk (abspath (folder args)) :: _)).
Qed.

End EmissionExtras.

Lemma negative_max_bytes_admits_nothing_witness :
  max_bytes (with_max_bytes demo_args (-1)) < 0
  /\ fs_isdir demo_fs (abspath_id (folder (with_max_bytes demo_args (-1))))
     = true
  /\ fs_open_out demo_fs (output (with_max_bytes demo_args (-1))) = true
  /\ snd (run fnmatch_basic lower_basic abspath_id relpath_below
            encodable_all printable_all (with_max_bytes demo_args (-1)) demo_fs
            (fun _ => None))
         "contenido_carpeta.txt" = Some "".
Proof.
  split; [reflexivity|]. split; [reflexivity|]. split; [reflexivity|].
  assert (Hsizes : forall p n, fs_getsize demo_fs p = Some n -> 0 <= n).
  { intros p n. cbn [fs_getsize demo_fs].
    repeat match goal with
           | |- context [if ?b then _ else _] => destruct b
           end; intros H; inversion H; lia. }
  pose proof (negative_max_bytes_admits_nothing fnmatch_basic lower_basic
                abspath_id relpath_below encodable_all printable_all
                (with_max_bytes demo_args (-1)) demo_fs
                (fun _ => None) eq_refl Hsizes eq_refl eq_refl eq_refl) as H.
  destruct (run fnmatch_basic lower_basic abspath_id relpath_below
              encodable_all printable_all (with_max_bytes demo_args (-1)) demo_fs
              (fun _ => None))
    as [[status tr] st'].
  exact (proj1 (proj2 H)).
Defined.

(** ** Further properties of the traversal *)

Lemma walk_files_strip_links (tree : entry) : forall root : string,
  walk_files root false tree = walk_files root false (strip_links tree).
Proof.
  induction tree as [n|n l children IH] using entry_ind'; intros root;
    [reflexivity|].
  cbn [strip_links]. rewrite !walk_files_Dir.
  set (strip_child := fun c : entry =>
         match c with
         | File _ => c
         | Dir d l0 _ => if l0 then Dir d l0 [] else strip_links c
         end).
  assert (Hfiles : file_names (map strip_child children) = file_names children).
  { clear IH. unfold file_names.
    induction children as [|c r IHr]; [reflexivity|].
    cbn [map flat_map]. rewrite IHr.
    destruct c as [f|d l0 sub]; [reflexivity|].
    cbn. now destruct l0. }
  assert (Hdirs : dir_names (map strip_child children) = dir_names children).
  { clear IH Hfiles. unfold dir_names.
    induction children as [|c r IHr]; [reflexivity|].
    cbn [map flat_map]. rewrite IHr.
    destruct c as [f|d l0 sub]; [reflexivity|].
    cbn. now destruct l0. }
  rewrite Hfiles, Hdirs. f_equal.
  apply flat_map_ext. intros d. clear Hfiles Hdirs.
  induction IH as [|c r Hc _ IHr]; [reflexivity|].
  cbn [map descend]. destruct c as [f|d' l0 sub].
  - cbn [strip_child]. exact IHr.
  - cbn [strip_child]. destruct l0; cbn [strip_links orb negb].
    + now destruct (String.eqb d' d).
    + destruct (String.eqb d' d); [|exact IHr].
      apply (Hc (OsPath.join root d)).
Qed.

Lemma walk_files_follow_more (tree : entry) : forall (root p : string),
  In p (walk_files root false tree) -> In p (walk_files root true tree).
Proof.
  induction tree as [n|n l children IH] using entry_ind'; intros root p;
    [intros []|].
  rewrite !walk_files_Dir. intros Hin.
  apply in_or_app. apply in_app_or in Hin as [Hin|Hin]; [now left|right].
  apply in_flat_map in Hin as (d & Hd & Hp). apply in_flat_map.
  exists d. split; [exact Hd|]. clear Hd.
  induction IH as [|c r Hc _ IHr]; [destruct Hp|].
  cbn [descend] in Hp |- *. destruct c as [f|d' l0 sub]; [now apply IHr|].
  destruct (String.eqb d' d); [|now apply IHr].
  cbn [orb]. destruct l0; cbn [orb negb] in Hp; [destruct Hp|].
  now apply Hc.
Qed.

(** X9.  Without [--follow-symlinks] no symbolic link to a directory is
    descended into: what [walk_files] yields is unchanged when every
    such link below the root is emptied.  Following links only adds
    paths: whatever is yielded without the option is yielded with it. *)
Theorem symlinks_not_followed_by_default (root : string) (tree : entry) :
  walk_files root false tree = walk_files root false (strip_links tree)
  /\ (forall p, In p (walk_files root false tree) ->
                In p (walk_files root true tree)).
Proof.
  split; [apply walk_files_strip_links|].
  intros p. apply walk_files_follow_more.
Qed.

Lemma symlinks_not_followed_by_default_witness :
  In "/proj/docs/x.md" (walk_files "/proj" false demo_tree)
  /\ In "/proj/docs/x.md" (walk_files "/proj" true demo_tree)
  /\ ~ In "/proj/link/z.txt" (walk_files "/proj" false demo_tree)
  /\ In "/proj/link/z.txt" (walk_files "/proj" true demo_tree).
Proof.
  assert (H : In "/proj/docs/x.md" (walk_files "/proj" false demo_tree))
    by (vm_compute; tauto).
  split; [exact H|]. split.
  - exact (proj2 (symlinks_not_followed_by_default "/proj" demo_tree) _ H).
  - split; [|vm_compute; tauto].
    vm_compute. intros Hin.
    repeat (destruct Hin as [Hin|Hin]; [discriminate Hin|]). exact Hin.
Defined.

Lemma mem_In (x : string) (l : list string) :
  Py.mem x l = true <-> In x l.
Proof.
  unfold Py.mem. rewrite existsb_exists. split.
  - intros (y & Hy & Heq). apply String.eqb_eq in Heq. now subst.
  - intros H. exists x. split; [exact H | apply String.eqb_refl].
Qed.

Lemma dir_names_In (d : string) (children : list entry) :
  In d (dir_names children) <-> exists l sub, In (Dir d l sub) children.
Proof.
  unfold dir_names. rewrite in_flat_map. split.
  - intros ([n|n l sub] & Hin & Hd); [destruct Hd|].
    destruct Hd as [<-|[]]. now exists l, sub.
  - intros (l & sub & Hin). exists (Dir d l sub). split; [exact Hin|now left].
Qed.

(** With distinct names, the descent into [d] finds the directory of
    that name. *)
Lemma descend_unique (follow : bool) (top d : string) (l : bool)
    (sub children : list entry) :
  distinct (dir_names children) = true ->
  In (Dir d l sub) children ->
  descend follow top d children
  = if follow || negb l
    then walk_files (OsPath.join top d) follow (Dir d l sub) else [].
Proof.
  induction children as [|c r IH]; [intros _ []|].
  intros Hdist [->|Hin].
  - cbn [descend]. now rewrite String.eqb_refl.
  - destruct c as [f|n l0 sub0]; cbn [descend].
    + apply IH; assumption.
    + change (dir_names (Dir n l0 sub0 :: r)) with (n :: dir_names r) in Hdist.
      cbn [distinct] in Hdist. apply andb_prop in Hdist as [Hn Hr].
      destruct (String.eqb_spec n d) as [->|_]; [|now apply IH].
      apply negb_true_iff in Hn.
      assert (Hmem : Py.mem d (dir_names r) = true)
        by (apply mem_In, dir_names_In; now exists l, sub).
      rewrite Hmem in Hn. discriminate.
Qed.

Lemma reaches_walk_files (follow : bool) (root p : string) (tree : entry) :
  reaches follow root tree p ->
  unique_dirs tree = true ->
  In p (walk_files root follow tree).
Proof.
  induction 1 as [top n islink children f Hf
                 |top n islink children d l sub p Hc Hd Hfollow _ IH];
    intros Huniq; rewrite walk_files_Dir; apply in_or_app.
  - left. apply in_map. now apply file_names_In.
  - right. cbn [unique_dirs] in Huniq.
    apply andb_prop in Huniq as [Hdist Hall].
    apply in_flat_map. exists d. split.
    + rewrite prune_dirnames_filter. apply filter_In. split.
      * apply dir_names_In. now exists l, sub.
      * now rewrite Hd.
    + rewrite (descend_unique follow top d l sub children Hdist Hc), Hfollow.
      apply IH. rewrite forallb_forall in Hall. now apply Hall.
Qed.

(** X10.  When the subdirectories of every directory have distinct
    names, as a file system guarantees, [walk_files] yields exactly the
    files reached from the root through directories that are neither
    excluded, nor hidden, nor symbolic links left unfollowed: none of
    these files is missed and nothing else is yielded. *)
Theorem walk_files_yields_exactly_reachable (root : string) (follow : bool)
    (tree : entry) (p : string) :
  unique_dirs tree = true ->
  (In p (walk_files root follow tree) <-> reaches follow root tree p).
Proof.
  intros Huniq. split.
  - apply walk_files_reaches.
  - intros Hr. now apply reaches_walk_files.
Qed.

Lemma walk_files_yields_exactly_reachable_witness :
  unique_dirs demo_tree = true
  /\ reaches false "/proj" demo_tree "/proj/docs/y.txt".
Proof.
  split; [reflexivity|].
  apply (walk_files_yields_exactly_reachable "/proj" false demo_tree
           "/proj/docs/y.txt" eq_refl).
  vm_compute. tauto.
Defined.

(** ** Paths yielded and headers written *)

Lemma string_length_app (a b : string) :
  String.length (a ++ b) = (String.length a + String.length b)%nat.
Proof. induction a as [|c a IH]; cbn; [reflexivity | now rewrite IH]. Qed.

Lemma substring_all (s : string) : String.substring 0 (String.length s) s = s.
Proof. induction s as [|c s IH]; cbn; [reflexivity | now rewrite IH]. Qed.

Lemma substring_skip (a b : string) (n m : nat) :
  String.substring (String.length a + n) m (a ++ b) = String.substring n m b.
Proof. induction a as [|c a IH]; cbn; [reflexivity | exact IH]. Qed.

Lemma rfind_from_app (c : ascii) (a b : string) : forall i last : Z,
  Py.rfind_from c (a ++ b) i last
  = Py.rfind_from c b (i + Py.len a) (Py.rfind_from c a i last).
Proof.
  unfold Py.len. induction a as [|x a IH]; intros i last.
  - cbn. now rewrite Z.add_0_r.
  - cbn [String.append Py.rfind_from String.length]. rewrite IH.
    f_equal. lia.
Qed.

Lemma rfind_from_slash_free (f : string) : forall i last : Z,
  slash_free f = true -> Py.rfind_from OsPath.sep f i last = last.
Proof.
  induction f as [|c f IH]; intros i last Hf; [reflexivity|].
  cbn [slash_free] in Hf. apply andb_prop in Hf as [Hc Hf].
  apply negb_true_iff in Hc.
  cbn [Py.rfind_from]. rewrite Hc. now apply IH.
Qed.

Lemma basename_slash_free (f : string) :
  slash_free f = true -> OsPath.basename f = f.
Proof.
  intros Hf. unfold OsPath.basename, Py.rfind, Py.slice, Py.len.
  rewrite (rfind_from_slash_free f 0 (-1) Hf).
  replace (Z.to_nat (-1 + 1)) with 0%nat by reflexivity.
  replace (Z.to_nat (Z.of_nat (String.length f) - (-1 + 1)))
    with (String.length f) by lia.
  apply substring_all.
Qed.

Lemma basename_after_sep (a f : string) :
  slash_free f = true ->
  OsPath.basename (a ++ String OsPath.sep f) = f.
Proof.
  intros Hf. unfold OsPath.basename, Py.rfind, Py.slice.
  rewrite rfind_from_app. cbn [Py.rfind_from].
  rewrite Ascii.eqb_refl, (rfind_from_slash_free f _ _ Hf).
  unfold Py.len. rewrite string_length_app. cbn [String.length].
  replace (Z.to_nat (0 + Z.of_nat (String.length a) + 1))
    with (String.length a + 1)%nat by lia.
  replace (Z.to_nat (Z.of_nat (String.length a + S (String.length f))
                     - (0 + Z.of_nat (String.length a) + 1)))
    with (String.length f) by lia.
  rewrite substring_skip. cbn [String.substring]. apply substring_all.
Qed.

Lemma slash_free_not_absolute (f : string) :
  slash_free f = true -> Py.startswith f "/" = false.
Proof.
  unfold Py.startswith. destruct f as [|c f]; [reflexivity|].
  cbn [slash_free String.prefix]. intros H. apply andb_prop in H as [Hc _].
  apply negb_true_iff in Hc.
  destruct (ascii_dec "/" c) as [<-|_]; [|reflexivity].
  now rewrite Ascii.eqb_refl in Hc.
Qed.

Lemma prefix_spec (a b : string) :
  String.prefix a b = true <-> exists x, b = (a ++ x)%string.
Proof.
  revert b. induction a as [|c a IH]; intros b.
  - split; [intros _; now exists b | intros _; now destruct b].
  - destruct b as [|d b]; cbn [String.prefix String.append].
    + split; [discriminate | intros [x Hx]; discriminate Hx].
    + destruct (ascii_dec c d) as [<-|Hne].
      * rewrite IH. split; intros [x Hx]; exists x; congruence.
      * split; [discriminate|]. intros [x Hx]. congruence.
Qed.

(** The path joined to a directory keeps the name as its base name and
    the directory as its prefix. *)
Lemma join_shape (a f : string) :
  slash_free f = true ->
  OsPath.basename (OsPath.join a f) = f
  /\ String.prefix a (OsPath.join a f) = true.
Proof.
  intros Hf. unfold OsPath.join.
  rewrite (slash_free_not_absolute f Hf).
  destruct (String.eqb_spec a "") as [->|_]; cbn [orb].
  - split; [now apply basename_slash_free|].
    apply prefix_spec. now exists f.
  - destruct (Py.endswith a "/") eqn:He.
    + split; [|apply prefix_spec; now exists f].
      apply endswith_spec in He as [pre ->].
      rewrite string_app_assoc. now apply basename_after_sep.
    + split; [now apply basename_after_sep|].
      apply prefix_spec. now exists ("/" ++ f)%string.
Qed.

Lemma prefix_trans (a b c : string) :
  String.prefix a b = true -> String.prefix b c = true ->
  String.prefix a c = true.
Proof.
  rewrite !prefix_spec. intros [x ->] [y ->]. exists (x ++ y)%string.
  now rewrite string_app_assoc.
Qed.

Lemma reaches_shape (follow : bool) (root p : string) (tree : entry) :
  reaches follow root tree p ->
  names_slash_free tree = true ->
  In (OsPath.basename p) (all_file_names tree)
  /\ Py.startswith p root = true.
Proof.
  unfold Py.startswith.
  induction 1 as [top n islink children f Hf
                 |top n islink children d l sub p Hc Hd Hfollow _ IH];
    intros Hnames; cbn [names_slash_free] in Hnames;
    rewrite forallb_forall in Hnames; cbn [all_file_names].
  - specialize (Hnames _ Hf). cbn beta iota in Hnames.
    destruct (join_shape top f Hnames) as [-> Hp].
    split; [|exact Hp]. apply in_or_app. left. now apply file_names_In.
  - specialize (Hnames _ Hc). cbn beta iota in Hnames.
    apply andb_prop in Hnames as [Hdname Hsub].
    destruct (IH Hsub) as [Hin Hp].
    split.
    + apply in_or_app. right. apply in_flat_map.
      exists (Dir d l sub). now split.
    + apply (prefix_trans top (OsPath.join top d) p);
        [apply (join_shape top d Hdname) | exact Hp].
Qed.

(** X11.  When no name in the tree holds a path separator, every path
    [walk_files] yields starts with the root it was given, and its base
    name, the one the filter tests and the default header shows, is the
    name of a file of the tree. *)
Theorem yielded_paths_lie_under_root (root : string) (follow : bool)
    (tree : entry) (p : string) :
  names_slash_free tree = true ->
  In p (walk_files root follow tree) ->
  Py.startswith p root = true
  /\ In (OsPath.basename p) (all_file_names tree).
Proof.
  intros Hnames Hin.
  destruct (reaches_shape follow root p tree
              (walk_files_reaches follow tree root p Hin) Hnames).
  now split.
Qed.

Lemma yielded_paths_lie_under_root_witness :
  names_slash_free demo_tree = true
  /\ In "/proj/docs/x.md" (walk_files "/proj" false demo_tree)
  /\ Py.startswith "/proj/docs/x.md" "/proj" = true
  /\ In (OsPath.basename "/proj/docs/x.md") (all_file_names demo_tree).
Proof.
  split; [reflexivity|].
  assert (H : In "/proj/docs/x.md" (walk_files "/proj" false demo_tree))
    by (vm_compute; tauto).
  split; [exact H|].
  exact (yielded_paths_lie_under_root "/proj" false demo_tree
           "/proj/docs/x.md" eq_refl H).
Defined.

Section HeaderExtras.

Variable fnmatch : string -> string -> bool.
Variable lower : string -> string.
Variable relpath : string -> string -> string.

(** X12.  With base-name headers and hidden files not shown, every
    header written for a directory whose names hold no separator is the
    name of a file of the tree and does not start with ['.']: no block is
    ever headed by a hidden file. *)
Theorem headers_are_visible_file_names (args : Args) (root : string)
    (fs : filesystem) (tree : entry) (header content : string) :
  names_slash_free tree = true ->
  use_path args = false ->
  show_hidden args = false ->
  In (header, content)
     (emitted fnmatch lower relpath args root fs
        (walk_files root (follow_symlinks args) tree)) ->
  In header (all_file_names tree)
  /\ Py.startswith header "." = false
  /\ exists p, In p (walk_files root (follow_symlinks args) tree)
               /\ header = OsPath.basename p
               /\ fs_text fs p (encoding args) = Some content.
Proof.
  intros Hnames Hbase Hshow Hin.
  unfold emitted in Hin. apply in_flat_map in Hin as (p & Hp & Hin).
  destruct (fst (should_skip_file fnmatch lower p args fs)) eqn:Hskip;
    [destruct Hin|].
  destruct (fs_text fs p (encoding args)) as [c|] eqn:Hread; [|destruct Hin].
  destruct Hin as [Heq|[]].
  unfold header_of in Heq. rewrite Hbase in Heq.
  injection Heq as <- <-.
  destruct (reaches_shape (follow_symlinks args) root p tree
              (walk_files_reaches (follow_symlinks args) tree root p Hp)
              Hnames) as [Hname _].
  split; [exact Hname|]. split.
  - apply should_skip_file_rule_order_aux in Hskip.
    destruct Hskip as (Hhidden & _).
    unfold rule_hidden, ret in Hhidden. cbn [fst] in Hhidden.
    now rewrite Hshow in Hhidden.
  - exists p. now repeat split.
Qed.

End HeaderExtras.

Lemma headers_are_visible_file_names_witness :
  names_slash_free demo_tree = true
  /\ In ("x.md", ("# title" ++ Py.NL)%string)
        (emitted fnmatch_basic lower_basic relpath_below demo_args "/proj" demo_fs
           (walk_files "/proj" (follow_symlinks demo_args) demo_tree))
  /\ In "x.md" (all_file_names demo_tree).
Proof.
  split; [reflexivity|].
  assert (H : In ("x.md", ("# title" ++ Py.NL)%string)
                (emitted fnmatch_basic lower_basic relpath_below demo_args "/proj"
                   demo_fs
                   (walk_files "/proj" (follow_symlinks demo_args)
                      demo_tree)))
    by (vm_compute; tauto).
  split; [exact H|].
  exact (proj1 (headers_are_visible_file_names fnmatch_basic lower_basic relpath_below
                  demo_args "/proj" demo_fs demo_tree "x.md"
                  ("# title" ++ Py.NL)%string eq_refl eq_refl eq_refl H)).
Defined.
